(** * The schema-adaptive query runner of [run_query.py]

    A shallow embedding of [find_first_in] and [build_query] together with
    the two catalog reads they perform ([get_tables], [get_columns]), and
    the properties of the rendered query text.

    Python strings are modelled as [string] (the UTF-8 bytes of the text).
    The connection is a piece of state threaded through every read: the
    store's catalog plus the list of statements sent to it so far. *)

From Stdlib Require Import String Ascii List Bool Arith Lia DecimalString.
Import ListNotations.
Local Open Scope list_scope.
Local Open Scope string_scope.

(** ** Python values *)

Module Py.

(** The line feed that separates the lines of a triple-quoted literal. *)
Definition nl : string := String (ascii_of_nat 10) EmptyString.

(** [str.lower] on the ASCII range.  The five table names the runner looks
    for contain no letter that is the lower-case image of a character
    outside ASCII, so on bytes above 127 the identity gives the same
    answers to every comparison [t.lower() == name] made by the runner. *)
Definition lower_ascii (a : ascii) : ascii :=
  let n := nat_of_ascii a in
  if ((65 <=? n)%nat && (n <=? 90)%nat)%bool then ascii_of_nat (n + 32) else a.

Fixpoint lower (s : string) : string :=
  match s with
  | EmptyString => EmptyString
  | String a rest => String (lower_ascii a) (lower rest)
  end.

(** [x in l] for a list of strings: a left-to-right scan with [==]. *)
Fixpoint py_in (x : string) (l : list string) : bool :=
  match l with
  | [] => false
  | y :: rest => if String.eqb x y then true else py_in x rest
  end.

(** Truth value of an [Optional[str]]: [None] and the empty string are
    false. *)
Definition truthy (x : option string) : bool :=
  match x with
  | None => false
  | Some s => negb (String.eqb s "")
  end.

(** Truth value of a list. *)
Definition nonempty {A : Type} (l : list A) : bool :=
  match l with
  | [] => false
  | _ :: _ => true
  end.

(** What an f-string field [{x}] renders for an [Optional[str]]. *)
Definition py_str (x : option string) : string :=
  match x with
  | None => "None"
  | Some s => s
  end.

(** [x or d] with a string default. *)
Definition py_or (x : option string) (d : string) : string :=
  if truthy x then py_str x else d.

End Py.
Import Py.

(** ** Candidate lists (module-level constants of [run_query.py]) *)

Definition PRODUCT_NAME_CANDIDATES : list string :=
  ["product_name"; "name"; "title"; "product_title"; "product"].
Definition ORDER_TOTAL_CANDIDATES : list string :=
  ["total_amount"; "total"; "amount"; "order_total"].
Definition REVIEW_RATING_CANDIDATES : list string := ["rating"; "stars"; "score"].
Definition ORDER_ID_CANDIDATES : list string := ["order_id"; "id"].
Definition PRODUCT_ID_CANDIDATES : list string := ["product_id"; "id"].
Definition CUSTOMER_ID_CANDIDATES : list string := ["customer_id"; "id"].
Definition QUANTITY_CANDIDATES : list string := ["quantity"; "qty"].
(** The list written inline at the [subtotal_col] assignment. *)
Definition SUBTOTAL_CANDIDATES : list string := ["subtotal"; "line_total"; "amount"].

(** ** Candidate resolution *)

(** [find_first_in(cols, candidates)]: the loop over [candidates] returning
    at the first one found in [cols]. *)
Fixpoint find_first_in (cols candidates : list string) : option string :=
  match candidates with
  | [] => None
  | c :: rest => if py_in c cols then Some c else find_first_in cols rest
  end.

(** The resolver as the specification words it: the first candidate, in
    preference order, that is present among the columns. *)
Inductive first_present (cols : list string) : list string -> string -> Prop :=
| fp_here : forall c rest, In c cols -> first_present cols (c :: rest) c
| fp_later : forall c rest r,
    ~ In c cols -> first_present cols rest r -> first_present cols (c :: rest) r.

Definition resolve_spec (cols candidates : list string) : option string :=
  List.find (fun c => existsb (String.eqb c) cols) candidates.

(** ** The store and the connection *)

(** A table of the catalog: its name as stored, and its column names in
    declaration order. *)
Definition table : Type := (string * list string)%type.

Record connection : Type := mkConnection {
  catalog : list table;
  executed : list string
}.

Inductive exn : Type :=
| RuntimeError (msg : string)
| IndexError.

Inductive outcome (A : Type) : Type :=
| Returns (a : A)
| Raises (e : exn).
Arguments Returns {A} a.
Arguments Raises {A} e.

(** Computations over a connection that may raise. *)
Definition M (A : Type) : Type := connection -> outcome A * connection.

Definition ret {A : Type} (a : A) : M A := fun conn => (Returns a, conn).

Definition raise {A : Type} (e : exn) : M A := fun conn => (Raises e, conn).

Definition bind {A B : Type} (m : M A) (k : A -> M B) : M B :=
  fun conn =>
    match m conn with
    | (Returns a, conn') => k a conn'
    | (Raises e, conn') => (Raises e, conn')
    end.

Notation "x <- m ;; k" := (bind m (fun x => k))
  (at level 61, m at next level, right associativity).

(** [conn.execute(stmt)] for a catalog read: the statement is recorded and
    the stored data is left as it was. *)
Definition record_statement (stmt : string) (conn : connection) : connection :=
  mkConnection (catalog conn) (executed conn ++ [stmt])%list.

(** Rows of [PRAGMA table_info(name)]: the columns of the table of that
    name, none when there is no such table. *)
Fixpoint table_info (cat : list table) (name : string) : list string :=
  match cat with
  | [] => []
  | (t, cols) :: rest => if String.eqb t name then cols else table_info rest name
  end.

Definition get_tables : M (list string) :=
  fun conn =>
    (Returns (map fst (catalog conn)),
     record_statement "SELECT name FROM sqlite_master WHERE type='table';" conn).

Definition get_columns (tbl : option string) : M (list string) :=
  fun conn =>
    (Returns (table_info (catalog conn) (py_str tbl)),
     record_statement ("PRAGMA table_info(" ++ py_str tbl ++ ");") conn).

(** [l[0]] *)
Definition index0 (l : list string) : M string :=
  match l with
  | [] => raise IndexError
  | x :: _ => ret x
  end.

(** ** [build_query] *)

(** The inner function [find_table] of [build_query]. *)
Fixpoint find_table (tables : list string) (name : string) : option string :=
  match tables with
  | [] => None
  | t :: rest => if String.eqb (lower t) name then Some t else find_table rest name
  end.

(** The local variables of [build_query] that the rendering reads. *)
Record bindings : Type := mkBindings {
  t_customers : option string;
  t_orders : option string;
  t_products : option string;
  t_order_items : option string;
  t_reviews : option string;
  cust_id_col : string;
  order_id_col : string;
  product_id_col : option string;
  product_name_col : option string;
  quantity_col : option string;
  subtotal_col : option string;
  order_total_col : option string;
  rating_col : option string
}.

(** [find_first_in(cols, candidates) or cols[0]] *)
Definition first_or_index0 (cols candidates : list string) : M string :=
  let r := find_first_in cols candidates in
  if truthy r then ret (py_str r) else index0 cols.

(** [get_columns(conn, t) if t else []] *)
Definition columns_if (t : option string) : M (list string) :=
  if truthy t then get_columns t else ret [].

(** [find_first_in(cols, candidates) if cols else None] *)
Definition find_if_cols (cols candidates : list string) : option string :=
  if nonempty cols then find_first_in cols candidates else None.

(** Lines 35-81: inspection of the catalog and resolution of the roles. *)
Definition resolve : M bindings :=
  tables <- get_tables ;;
  let tables_lower := map lower tables in
  if negb (py_in "customers" tables_lower) || negb (py_in "orders" tables_lower)
  then raise (RuntimeError
                "Database must have at least 'customers' and 'orders' tables.")
  else
    let t_customers := find_table tables "customers" in
    let t_orders := find_table tables "orders" in
    let t_products :=
      if py_in "products" tables_lower then find_table tables "products" else None in
    let t_order_items :=
      if py_in "order_items" tables_lower then find_table tables "order_items"
      else None in
    let t_reviews :=
      if py_in "reviews" tables_lower then find_table tables "reviews" else None in
    orders_cols <- get_columns t_orders ;;
    customers_cols <- get_columns t_customers ;;
    products_cols <- columns_if t_products ;;
    oi_cols <- columns_if t_order_items ;;
    reviews_cols <- columns_if t_reviews ;;
    cust_id_col <- first_or_index0 customers_cols CUSTOMER_ID_CANDIDATES ;;
    order_id_col <- first_or_index0 orders_cols ORDER_ID_CANDIDATES ;;
    let product_id_col := find_if_cols oi_cols PRODUCT_ID_CANDIDATES in
    let product_id_col :=
      if negb (truthy product_id_col)
      then find_first_in orders_cols PRODUCT_ID_CANDIDATES
      else product_id_col in
    let product_name_col := find_if_cols products_cols PRODUCT_NAME_CANDIDATES in
    let quantity_col := find_if_cols oi_cols QUANTITY_CANDIDATES in
    let subtotal_col := find_if_cols oi_cols SUBTOTAL_CANDIDATES in
    let order_total_col := find_first_in orders_cols ORDER_TOTAL_CANDIDATES in
    let rating_col := find_if_cols reviews_cols REVIEW_RATING_CANDIDATES in
    ret (mkBindings t_customers t_orders t_products t_order_items t_reviews
           cust_id_col order_id_col product_id_col product_name_col
           quantity_col subtotal_col order_total_col rating_col).

(** The three branches of lines 84-139, in the order they are tried. *)
Inductive tier : Type := Full | Degraded | Minimal.

Definition select_tier (b : bindings) : tier :=
  if truthy (t_order_items b) && truthy (product_name_col b) then Full
  else if truthy (product_id_col b) && truthy (t_products b)
          && truthy (product_name_col b) then Degraded
  else Minimal.

(** [('r.' + rating_col) if rating_col else 'NULL AS rating'] *)
Definition rating_expr (b : bindings) : string :=
  if truthy (rating_col b) then "r." ++ py_str (rating_col b) else "NULL AS rating".

(** Lines 86-102. *)
Definition full_sql (b : bindings) : string :=
  nl ++
  "        SELECT" ++ nl ++
  "            c." ++ cust_id_col b ++ " AS customer_id," ++ nl ++
  "            c.name AS customer_name," ++ nl ++
  "            p." ++ py_str (product_name_col b) ++ " AS product_name," ++ nl ++
  "            o." ++ order_id_col b ++ " AS order_id," ++ nl ++
  "            o.order_date," ++ nl ++
  "            oi." ++ py_or (quantity_col b) "quantity" ++ " AS quantity," ++ nl ++
  "            oi." ++ py_or (subtotal_col b) "subtotal" ++ " AS subtotal," ++ nl ++
  "            " ++ rating_expr b ++ nl ++
  "        FROM " ++ py_str (t_customers b) ++ " c" ++ nl ++
  "        JOIN " ++ py_str (t_orders b) ++ " o ON c." ++ cust_id_col b
    ++ " = o.customer_id" ++ nl ++
  "        JOIN " ++ py_str (t_order_items b) ++ " oi ON o." ++ order_id_col b
    ++ " = oi.order_id" ++ nl ++
  "        LEFT JOIN " ++ py_str (t_products b) ++ " p ON oi.product_id = p."
    ++ py_or (product_id_col b) "product_id" ++ nl ++
  "        LEFT JOIN " ++ py_str (t_reviews b) ++ " r ON r.customer_id = c."
    ++ cust_id_col b ++ " AND r.product_id = p."
    ++ py_or (product_id_col b) "product_id" ++ nl ++
  "        LIMIT 50;" ++ nl ++
  "        ".

(** Lines 107-124. *)
Definition degraded_sql (b : bindings) : string :=
  let qty := "1" in
  let subtotal_expr :=
    if truthy (order_total_col b) then "o." ++ py_str (order_total_col b)
    else "o.total_amount" in
  nl ++
  "        SELECT" ++ nl ++
  "            c." ++ cust_id_col b ++ " AS customer_id," ++ nl ++
  "            c.name AS customer_name," ++ nl ++
  "            p." ++ py_str (product_name_col b) ++ " AS product_name," ++ nl ++
  "            o." ++ order_id_col b ++ " AS order_id," ++ nl ++
  "            o.order_date," ++ nl ++
  "            " ++ qty ++ " AS quantity," ++ nl ++
  "            " ++ subtotal_expr ++ " AS subtotal," ++ nl ++
  "            " ++ rating_expr b ++ nl ++
  "        FROM " ++ py_str (t_customers b) ++ " c" ++ nl ++
  "        JOIN " ++ py_str (t_orders b) ++ " o ON c." ++ cust_id_col b
    ++ " = o.customer_id" ++ nl ++
  "        LEFT JOIN " ++ py_str (t_products b) ++ " p ON o."
    ++ py_str (product_id_col b) ++ " = p." ++ py_str (product_id_col b) ++ nl ++
  "        LEFT JOIN " ++ py_str (t_reviews b) ++ " r ON r.customer_id = c."
    ++ cust_id_col b ++ " AND r.product_id = p." ++ py_str (product_id_col b) ++ nl ++
  "        LIMIT 50;" ++ nl ++
  "        ".

(** Lines 128-138. *)
Definition minimal_sql (b : bindings) : string :=
  nl ++
  "    SELECT" ++ nl ++
  "        c." ++ cust_id_col b ++ " AS customer_id," ++ nl ++
  "        c.name AS customer_name," ++ nl ++
  "        o." ++ order_id_col b ++ " AS order_id," ++ nl ++
  "        o.order_date," ++ nl ++
  "        o." ++ py_or (order_total_col b) "total_amount" ++ " AS total_amount" ++ nl ++
  "    FROM " ++ py_str (t_customers b) ++ " c" ++ nl ++
  "    LEFT JOIN " ++ py_str (t_orders b) ++ " o ON c." ++ cust_id_col b
    ++ " = o.customer_id" ++ nl ++
  "    LIMIT 50;" ++ nl ++
  "    ".

Definition render (b : bindings) : string :=
  match select_tier b with
  | Full => full_sql b
  | Degraded => degraded_sql b
  | Minimal => minimal_sql b
  end.

Definition build_query : M string :=
  b <- resolve ;;
  ret (render b).

(** Running a computation: the value (or exception) and the connection
    it leaves behind. *)
Definition result_of {A : Type} (m : M A) (conn : connection) : outcome A :=
  fst (m conn).
Definition after {A : Type} (m : M A) (conn : connection) : connection :=
  snd (m conn).

(** A connection just opened on a store with the given catalog. *)
Definition connect (cat : list table) : connection := mkConnection cat [].

(** ** Sample stores *)

Module Samples.

Definition scenario_A : list table :=
  [ ("customers", ["customer_id"; "name"]);
    ("orders", ["order_id"; "customer_id"; "total_amount"; "order_date"]) ].

Definition scenario_B : list table :=
  [ ("customers", ["customer_id"; "name"]);
    ("orders", ["order_id"; "customer_id"; "product_id"; "total_amount"; "order_date"]);
    ("products", ["product_id"; "name"]) ].

Definition scenario_C : list table :=
  (scenario_B ++
   [ ("order_items", ["order_id"; "product_id"; "quantity"; "subtotal"]);
     ("reviews", ["customer_id"; "product_id"; "rating"]) ])%list.

(** Identifier columns that match no candidate name. *)
Definition unmatched_ids : list table :=
  [ ("customers", ["cid"; "name"]);
    ("orders", ["oid"; "customer_id"; "order_date"; "total"]) ].

(** Two tables none of whose columns is a candidate of any role. *)
Definition unmatched_columns : list table :=
  [ ("Orders", ["oid"; "cust"; "placed_at"; "grand_total"]);
    ("Customers", ["cid"; "full_name"]) ].

(** Products keyed by [id], line items referring to them by
    [product_id]. *)
Definition products_keyed_by_id : list table :=
  [ ("Customers", ["customer_id"; "name"]);
    ("Orders", ["order_id"; "customer_id"; "order_date"]);
    ("Products", ["id"; "name"]);
    ("Order_Items", ["order_id"; "product_id"; "qty"; "line_total"]);
    ("Reviews", ["customer_id"; "product_id"; "stars"]) ].


(** Scenario B with line items, still without reviews. *)
Definition line_items_without_reviews : list table :=
  (scenario_B ++
   [ ("order_items", ["order_id"; "product_id"; "quantity"; "subtotal"]) ])%list.

End Samples.

(** ** Text predicates used to state properties of the rendered query *)

Module Text.

(** [s] occurs in [t] as a contiguous run of characters. *)
Definition occurs_in (s t : string) : Prop :=
  exists pre post, t = pre ++ s ++ post.

(** [t] ends with [s]. *)
Definition ends_with (s t : string) : Prop :=
  exists pre, t = pre ++ s.

Fixpoint starts_withb (s t : string) : bool :=
  match s, t with
  | EmptyString, _ => true
  | String a s', String b t' => if Ascii.eqb a b then starts_withb s' t' else false
  | String _ _, EmptyString => false
  end.

(** Decision procedure for [occurs_in]. *)
Fixpoint contains (s t : string) : bool :=
  if starts_withb s t then true
  else match t with
       | EmptyString => false
       | String _ t' => contains s t'
       end.

Definition is_space (a : ascii) : bool :=
  match nat_of_ascii a with
  | 9 | 10 | 13 | 32 => true
  | _ => false
  end.

(** Split a text at white space; [cur] is the word being read, reversed. *)
Fixpoint words_from (cur : string) (t : string) : list string :=
  let flush := match cur with EmptyString => [] | _ => [cur] end in
  match t with
  | EmptyString => flush
  | String a rest =>
      if is_space a then (flush ++ words_from EmptyString rest)%list
      else words_from (cur ++ String a EmptyString) rest
  end.

Definition words (t : string) : list string := words_from EmptyString t.

(** The word that follows each [FROM] or [JOIN] keyword: the table names
    a query reads. *)
Fixpoint after_from_join (ws : list string) : list string :=
  match ws with
  | [] => []
  | w :: rest =>
      if String.eqb w "FROM" || String.eqb w "JOIN" then
        match rest with
        | [] => []
        | t :: _ => t :: after_from_join rest
        end
      else after_from_join rest
  end.

Definition from_join_tables (sql : string) : list string :=
  after_from_join (words sql).

End Text.
Import Text.

(** ** What a computation reads from the catalog *)

(** [reads m cat v]: on every connection to a store whose catalog is
    [cat], whatever was executed on it before, [m] ends with [v] and leaves
    the catalog as it found it. *)
Definition reads {A : Type} (m : M A) (cat : list table) (v : outcome A) : Prop :=
  forall conn, catalog conn = cat ->
    result_of m conn = v /\ catalog (after m conn) = cat.

(** A table of that lower-cased name is in the catalog. *)
Definition has_table (cat : list table) (name : string) : bool :=
  py_in name (map lower (map fst cat)).

(** The columns of the table playing the role [name]: those of the first
    table whose lower-cased name is [name], none when there is no such
    table. *)
Definition role_columns (cat : list table) (name : string) : list string :=
  match find_table (map fst cat) name with
  | Some t => table_info cat t
  | None => []
  end.

(** The first candidate among the columns, else the first column. *)
Definition first_choice (cols candidates : list string) : option string :=
  match find_first_in cols candidates with
  | Some c => Some c
  | None => hd_error cols
  end.

(** The outcome of [resolve] as a function of the catalog. *)
Definition bindings_of (cat : list table) : outcome bindings :=
  let tables := map fst cat in
  if has_table cat "customers" && has_table cat "orders" then
    let orders_cols := role_columns cat "orders" in
    let oi_cols := role_columns cat "order_items" in
    match first_choice (role_columns cat "customers") CUSTOMER_ID_CANDIDATES,
          first_choice orders_cols ORDER_ID_CANDIDATES with
    | Some c, Some o =>
        Returns
          (mkBindings
             (find_table tables "customers") (find_table tables "orders")
             (find_table tables "products") (find_table tables "order_items")
             (find_table tables "reviews")
             c o
             (match find_first_in oi_cols PRODUCT_ID_CANDIDATES with
              | Some p => Some p
              | None => find_first_in orders_cols PRODUCT_ID_CANDIDATES
              end)
             (find_first_in (role_columns cat "products") PRODUCT_NAME_CANDIDATES)
             (find_first_in oi_cols QUANTITY_CANDIDATES)
             (find_first_in oi_cols SUBTOTAL_CANDIDATES)
             (find_first_in orders_cols ORDER_TOTAL_CANDIDATES)
             (find_first_in (role_columns cat "reviews") REVIEW_RATING_CANDIDATES))
    | _, _ => Raises IndexError
    end
  else Raises (RuntimeError
                 "Database must have at least 'customers' and 'orders' tables.").

(** [build_query] selects tier [t] on [conn]: resolution succeeds and the
    branch taken by the rendering is [t]. *)
Definition selects (conn : connection) (t : tier) : Prop :=
  exists b, result_of resolve conn = Returns b /\ select_tier b = t.

(** ** Vocabulary of the specification *)

(** A table is present when some table of the catalog has that name up to
    letter case. *)
Definition present (cat : list table) (name : string) : Prop :=
  exists t, In t (map fst cat) /\ lower t = name.

(** The mandatory precondition fails. *)
Definition insufficient (cat : list table) : Prop :=
  ~ present cat "customers" \/ ~ present cat "orders".

(** A role binding as the specification describes it: the resolver's
    answer, [None] standing for absent. *)
Definition bound_as_specified (binding : option string)
           (cols candidates : list string) : Prop :=
  binding = resolve_spec cols candidates.

(** The two identifier roles bound as the specification describes. *)
Definition id_roles_as_specified (conn : connection) : Prop :=
  forall b, result_of resolve conn = Returns b ->
    bound_as_specified (Some (cust_id_col b))
      (role_columns (catalog conn) "customers") CUSTOMER_ID_CANDIDATES /\
    bound_as_specified (Some (order_id_col b))
      (role_columns (catalog conn) "orders") ORDER_ID_CANDIDATES.

(** Every candidate name the runner knows. *)
Definition all_candidates : list string :=
  (PRODUCT_NAME_CANDIDATES ++ ORDER_TOTAL_CANDIDATES ++ REVIEW_RATING_CANDIDATES
   ++ ORDER_ID_CANDIDATES ++ PRODUCT_ID_CANDIDATES ++ CUSTOMER_ID_CANDIDATES
   ++ QUANTITY_CANDIDATES ++ SUBTOTAL_CANDIDATES)%list.

(** Columns none of which is a candidate of any role. *)
Definition unmatched (cols : list string) : Prop :=
  forall c, In c cols -> ~ In c all_candidates.

(** The default a role takes when it is absent. *)
Definition or_default (x : option string) (d : string) : string :=
  match x with
  | Some c => c
  | None => d
  end.



(** The product-id role as the runner resolves it: among the columns of
    order_items first, then among those of orders. *)
Definition product_id_role (cat : list table) : option string :=
  match resolve_spec (role_columns cat "order_items") PRODUCT_ID_CANDIDATES with
  | Some c => Some c
  | None => resolve_spec (role_columns cat "orders") PRODUCT_ID_CANDIDATES
  end.

(** The row cap that closes a query whose lines are indented by
    [indent]. *)
Definition limit_clause (indent : string) : string :=
  nl ++ indent ++ "LIMIT 50;" ++ nl ++ indent.

(** The FROM and JOIN lines of a Full-tier query in which the orders,
    order_items and reviews sides of the join conditions are fixed column
    names. *)
Definition full_joins (tc to toi tp tr cid oid pid : string) : string :=
  nl ++
  "        FROM " ++ tc ++ " c" ++ nl ++
  "        JOIN " ++ to ++ " o ON c." ++ cid ++ " = o.customer_id" ++ nl ++
  "        JOIN " ++ toi ++ " oi ON o." ++ oid ++ " = oi.order_id" ++ nl ++
  "        LEFT JOIN " ++ tp ++ " p ON oi.product_id = p." ++ pid ++ nl ++
  "        LEFT JOIN " ++ tr ++ " r ON r.customer_id = c." ++ cid
    ++ " AND r.product_id = p." ++ pid
  ++ limit_clause "        ".

(** The same for a Degraded-tier query. *)
Definition degraded_joins (tc to tp tr cid pid : string) : string :=
  nl ++
  "        FROM " ++ tc ++ " c" ++ nl ++
  "        JOIN " ++ to ++ " o ON c." ++ cid ++ " = o.customer_id" ++ nl ++
  "        LEFT JOIN " ++ tp ++ " p ON o." ++ pid ++ " = p." ++ pid ++ nl ++
  "        LEFT JOIN " ++ tr ++ " r ON r.customer_id = c." ++ cid
    ++ " AND r.product_id = p." ++ pid
  ++ limit_clause "        ".

(** Every table a query reads is a table of the catalog. *)
Definition reads_catalog_tables (cat : list table) (sql : string) : Prop :=
  forall t, In t (from_join_tables sql) -> In t (map fst cat).

(** The Minimal-tier query as the specification describes it: customers
    left-joined to orders, projecting the customer id, the customer name
    (column [name]), the order id, the order date (column [order_date]) and
    the order total, capped at 50 rows. *)
Definition minimal_query_text (tc to cid oid total : string) : string :=
  nl ++
  "    SELECT" ++ nl ++
  "        c." ++ cid ++ " AS customer_id," ++ nl ++
  "        c.name AS customer_name," ++ nl ++
  "        o." ++ oid ++ " AS order_id," ++ nl ++
  "        o.order_date," ++ nl ++
  "        o." ++ total ++ " AS total_amount" ++ nl ++
  "    FROM " ++ tc ++ " c" ++ nl ++
  "    LEFT JOIN " ++ to ++ " o ON c." ++ cid ++ " = o.customer_id" ++ nl ++
  "    LIMIT 50;" ++ nl ++
  "    ".

(** ** The statements a run sends to the store *)

Definition list_tables_stmt : string :=
  "SELECT name FROM sqlite_master WHERE type='table';".

Definition table_info_stmt (t : string) : string :=
  "PRAGMA table_info(" ++ t ++ ");".

(** The column read of an optional table: sent only when the table was
    found. *)
Definition optional_read (cat : list table) (name : string) : list string :=
  match find_table (map fst cat) name with
  | Some t => [table_info_stmt t]
  | None => []
  end.

(** The statements [build_query] sends on a store with catalog [cat], in
    the order it sends them. *)
Definition statements_of (cat : list table) : list string :=
  list_tables_stmt ::
  (if has_table cat "customers" && has_table cat "orders" then
     table_info_stmt (py_str (find_table (map fst cat) "orders"))
     :: table_info_stmt (py_str (find_table (map fst cat) "customers"))
     :: (optional_read cat "products" ++ optional_read cat "order_items"
         ++ optional_read cat "reviews")
   else [])%list.

(** [traces m cat v stmts]: on a store with catalog [cat], [m] ends with
    [v], sends exactly [stmts] and changes nothing else. *)
Definition traces {A : Type} (m : M A) (cat : list table) (v : outcome A)
           (stmts : list string) : Prop :=
  forall conn, catalog conn = cat ->
    m conn = (v, mkConnection cat (executed conn ++ stmts)%list).

(** A statement that only reads the catalog. *)
Definition catalog_read (cat : list table) (stmt : string) : Prop :=
  stmt = list_tables_stmt
  \/ exists t, In t (map fst cat) /\ stmt = table_info_stmt t.

(** ** The select lists *)

(** The last projected column: the rating column of reviews under its own
    name, or a null column named [rating]. *)
Definition rating_projection (rating : option string) : string :=
  match rating with
  | Some c => "r." ++ c
  | None => "NULL AS rating"
  end.

(** The select list of a Full-tier query. *)
Definition full_select (cid pn oid qty sub : string) (rating : option string)
  : string :=
  nl ++
  "        SELECT" ++ nl ++
  "            c." ++ cid ++ " AS customer_id," ++ nl ++
  "            c.name AS customer_name," ++ nl ++
  "            p." ++ pn ++ " AS product_name," ++ nl ++
  "            o." ++ oid ++ " AS order_id," ++ nl ++
  "            o.order_date," ++ nl ++
  "            oi." ++ qty ++ " AS quantity," ++ nl ++
  "            oi." ++ sub ++ " AS subtotal," ++ nl ++
  "            " ++ rating_projection rating.

(** The select list of a Degraded-tier query: one unit per order, the
    order total as subtotal. *)
Definition degraded_select (cid pn oid total : string) (rating : option string)
  : string :=
  nl ++
  "        SELECT" ++ nl ++
  "            c." ++ cid ++ " AS customer_id," ++ nl ++
  "            c.name AS customer_name," ++ nl ++
  "            p." ++ pn ++ " AS product_name," ++ nl ++
  "            o." ++ oid ++ " AS order_id," ++ nl ++
  "            o.order_date," ++ nl ++
  "            1 AS quantity," ++ nl ++
  "            o." ++ total ++ " AS subtotal," ++ nl ++
  "            " ++ rating_projection rating.

(** ** [print_rows] *)

(** Texts are read here as sequences of characters, one [ascii] each, so
    that [String.length] is [len]; what is printed is the list of the
    arguments of the successive [print] calls. *)

Section PrintRows.

(** The values of a result row other than [None], with their [str]. *)
Variable value : Type.
Variable str : value -> string.

(** [("" if v is None else str(v))] *)
Definition cell_text (v : option value) : string :=
  match v with
  | None => ""
  | Some x => str x
  end.

(** [c * n] for a one-character string [c]. *)
Fixpoint repeat_char (c : ascii) (n : nat) : string :=
  match n with
  | O => ""
  | S n' => String c (repeat_char c n')
  end.

(** [s.ljust(w)]: padded with spaces on the right up to [w] characters,
    unchanged when it is already that long. *)
Definition ljust (s : string) (w : nat) : string :=
  s ++ repeat_char " " (w - String.length s).

(** [widths[i] = x] for [i] within the list. *)
Fixpoint set_index (i : nat) (x : nat) (widths : list nat) : list nat :=
  match widths, i with
  | [], _ => []
  | _ :: rest, O => x :: rest
  | w :: rest, S i' => w :: set_index i' x rest
  end.

(** The inner loop of lines 144-146 from index [i] on: [widths[i]] is read,
    which raises when [i] is past the end, and replaced by the larger of it
    and the length of the cell. *)
Fixpoint widen_cells (i : nat) (r : list (option value)) (widths : list nat)
  : outcome (list nat) :=
  match r with
  | [] => Returns widths
  | v :: rest =>
      match nth_error widths i with
      | None => Raises IndexError
      | Some w =>
          widen_cells (S i) rest
            (set_index i (Nat.max w (String.length (cell_text v))) widths)
      end
  end.

(** The outer loop of lines 143-146. *)
Fixpoint widen_rows (rows : list (list (option value))) (widths : list nat)
  : outcome (list nat) :=
  match rows with
  | [] => Returns widths
  | r :: rest =>
      match widen_cells 0 r widths with
      | Returns widths' => widen_rows rest widths'
      | Raises e => Raises e
      end
  end.

(** Line 148.  [widths] has one entry per header, so pairing the two lists
    is the loop over [range(len(headers))]. *)
Definition header_line (headers : list string) (widths : list nat) : string :=
  String.concat " | "
    (map (fun hw => ljust (fst hw) (snd hw)) (combine headers widths)).

(** Line 149. *)
Definition sep_line (headers : list string) (widths : list nat) : string :=
  String.concat "-+-"
    (map (fun hw => repeat_char "-" (snd hw)) (combine headers widths)).

(** Line 153, for one row.  The first loop has checked that no row is
    longer than [widths]. *)
Definition row_line (widths : list nat) (r : list (option value)) : string :=
  String.concat " | "
    (map (fun vw => ljust (cell_text (fst vw)) (snd vw)) (combine r widths)).

(** [str(n)] for a length. *)
Definition decimal (n : nat) : string := NilEmpty.string_of_uint (Nat.to_uint n).

(** The argument of the last [print], line 154. *)
Definition count_line (rows : list (list (option value))) : string :=
  nl ++ decimal (List.length rows) ++ " rows returned." ++ nl.

(** [print_rows(headers, rows)]: the texts printed, or the exception of the
    first loop, raised before anything is printed. *)
Definition print_rows (headers : list string) (rows : list (list (option value)))
  : outcome (list string) :=
  match widen_rows rows (map String.length headers) with
  | Raises e => Raises e
  | Returns widths =>
      Returns (header_line headers widths
               :: sep_line headers widths
               :: (map (row_line widths) rows ++ [count_line rows])%list)
  end.


End PrintRows.

Arguments cell_text {value} str v.
Arguments widen_cells {value} str i r widths.
Arguments widen_rows {value} str rows widths.
Arguments row_line {value} str widths r.
Arguments count_line {value} rows.
Arguments print_rows {value} str headers rows.

(** ** [main] of [run_query.py] *)

(** White space as [str.strip] sees it within ASCII.  Every text
    [build_query] returns begins with a line feed and spaces before
    [SELECT] and ends with a line feed and spaces after [LIMIT 50;], so
    this is all [sql.strip()] meets. *)
Definition py_space (a : ascii) : bool :=
  let n := nat_of_ascii a in
  ((9 <=? n)%nat && (n <=? 13)%nat) || ((28 <=? n)%nat && (n <=? 32)%nat).

Fixpoint lstrip (s : string) : string :=
  match s with
  | EmptyString => EmptyString
  | String a rest => if py_space a then lstrip rest else s
  end.

Fixpoint rstrip (s : string) : string :=
  match s with
  | EmptyString => EmptyString
  | String a rest =>
      match rstrip rest with
      | EmptyString => if py_space a then EmptyString else String a EmptyString
      | kept => String a kept
      end
  end.

Definition strip (s : string) : string := rstrip (lstrip s).

Section Main.

(** The values of a result row, the rows as the engine hands them out, and
    [r[h]], the item of a row under a column name. *)
Variable value : Type.
Variable str : value -> string.
Variable row : Type.
Variable row_item : row -> string -> option value.

(** The module constant [DB_PATH]. *)
Variable DB_PATH : string.

(** An exception of the [sqlite3] module: whether it is an instance of
    [sqlite3.OperationalError], the one class [main] catches, and its
    [str].  [sqlite3.Error] derives from [Exception], so none of them is a
    [RuntimeError]. *)
Record sqlite_error : Type := mkSqliteError {
  operational : bool;
  message : string
}.

(** What [main] runs against: whether the database file exists, the error
    [sqlite3.connect] raises on it if any, the catalog of the store, the
    error the engine raises on a catalog read if any, given the statements
    the connection was sent before it, and the engine's answer to the
    query: the error [conn.execute] or [fetchall] raises, or the column
    names of the result with its rows. *)
Record store : Type := mkStore {
  file_exists : bool;
  connect_error : option sqlite_error;
  store_catalog : list table;
  read_error : list string -> string -> option sqlite_error;
  run_query : string -> sqlite_error + (list string * list row)
}.

(** What is raised inside the [try] block. *)
Inductive raised : Type :=
| Py (e : exn)
| Sqlite (e : sqlite_error).

(** How the process ends. *)
Inductive ending : Type :=
| Exits (status : nat)
| ReturnsNormally
| Propagates (e : raised).

(** An execution of [main]: the texts printed, the statements sent over
    the connection, whether the connection was opened and whether it was
    closed, and the ending. *)
Record execution : Type := mkExecution {
  printed : list string;
  sent : list string;
  opened : bool;
  closed : bool;
  ended : ending
}.

(** The first of the statements [stmts], sent in this order after
    [history], on which the engine raises: the statements sent up to and
    including it, and the error. *)
Fixpoint first_refused (refuses : list string -> string -> option sqlite_error)
         (history stmts : list string) : option (list string * sqlite_error) :=
  match stmts with
  | [] => None
  | stmt :: rest =>
      match refuses history stmt with
      | Some err => Some ((history ++ [stmt])%list, err)
      | None => first_refused refuses (history ++ [stmt])%list rest
      end
  end.

(** A call of [get_tables] or [build_query] on the connection of [main].
    These functions are written above over a store that answers every
    catalog read; on the engine, each [conn.execute] of theirs may raise
    instead.  The call then stops at the first statement the engine
    refuses, the statements before it having been answered from the
    catalog; when none is refused it ends as the function does. *)
Definition on_engine {A : Type} (st : store) (m : M A) (conn : connection)
  : (raised + A) * connection :=
  match m conn with
  | (v, conn') =>
      match first_refused (read_error st) (executed conn)
              (skipn (List.length (executed conn)) (executed conn')) with
      | Some (history, err) =>
          (inl (Sqlite err), mkConnection (catalog conn) history)
      | None =>
          (match v with
           | Returns a => inr a
           | Raises e => inl (Py e)
           end, conn')
      end
  end.

(** The two rules around the echoed query. *)
Definition rule : string := repeat_char "-" 60.

(** Line 164. *)
Definition echo (sql : string) : string :=
  nl ++ "Executing query:" ++ nl ++ rule ++ nl ++ strip sql ++ nl ++ rule.

(** Line 172: one tuple per row, one item per header. *)
Definition rows_as_tuples (headers : list string) (rows : list row)
  : list (list (option value)) :=
  map (fun r => map (row_item r) headers) rows.

(** The [try] block, lines 162-173: the texts printed, what was raised if
    anything, and the connection afterwards. *)
Definition main_body (st : store) (conn : connection)
  : list string * option raised * connection :=
  match on_engine st get_tables conn with
  | (inl e, conn1) => ([], Some e, conn1)
  | (inr tables, conn1) =>
      let p1 := "Tables in database: " ++ String.concat ", " tables in
      match on_engine st build_query conn1 with
      | (inl e, conn2) => ([p1], Some e, conn2)
      | (inr sql, conn2) =>
          let p2 := echo sql in
          let conn3 := record_statement sql conn2 in
          match run_query st sql with
          | inl err => ([p1; p2], Some (Sqlite err), conn3)
          | inr (headers, rows) =>
              match rows with
              | [] => ([p1; p2; "Query returned 0 rows."], None, conn3)
              | _ :: _ =>
                  match print_rows str headers (rows_as_tuples headers rows) with
                  | Returns lines => ((p1 :: p2 :: lines)%list, None, conn3)
                  | Raises e => ([p1; p2], Some (Py e), conn3)
                  end
              end
          end
      end
  end.

(** [main()]: the existence check, [sqlite3.connect] outside the [try]
    block, the [try] block with its two handlers, which catch
    [sqlite3.OperationalError] and [RuntimeError] and nothing else, and the
    [finally] clause that closes the connection. *)
Definition main (st : store) : execution :=
  if negb (file_exists st) then
    mkExecution ["Database not found at " ++ DB_PATH] [] false false (Exits 1)
  else
    match connect_error st with
    | Some err => mkExecution [] [] false false (Propagates (Sqlite err))
    | None =>
        match main_body st (connect (store_catalog st)) with
        | (out, None, conn) =>
            mkExecution out (executed conn) true true ReturnsNormally
        | (out, Some (Sqlite err), conn) =>
            if operational err then
              mkExecution
                (out ++ [("SQLite error while running query: " ++ message err)%string])%list
                (executed conn) true true ReturnsNormally
            else
              mkExecution out (executed conn) true true (Propagates (Sqlite err))
        | (out, Some (Py (RuntimeError msg)), conn) =>
            mkExecution (out ++ [("Runtime error: " ++ msg)%string])%list
              (executed conn) true true ReturnsNormally
        | (out, Some (Py IndexError), conn) =>
            mkExecution out (executed conn) true true (Propagates (Py IndexError))
        end
    end.

End Main.

(** The first text [main] prints once connected, line 162. *)
Definition tables_line (cat : list table) : string :=
  "Tables in database: " ++ String.concat ", " (map fst cat).

(** The outcome of [build_query] on any connection to a store with this
    catalog. *)
Definition query_of (cat : list table) : outcome string :=
  match bindings_of cat with
  | Returns b => Returns (render b)
  | Raises e => Raises e
  end.

(** The first catalog read of a run of [main] that the engine refuses, if
    any: the listing of the tables by [main] itself, then the statements of
    [build_query]. *)
Definition refused_read {row : Type} (st : store row)
  : option (list string * sqlite_error) :=
  first_refused (read_error row st) []
    (list_tables_stmt :: statements_of (store_catalog row st)).

Arguments mkStore {row} file_exists connect_error store_catalog read_error run_query.
Arguments file_exists {row} s.
Arguments connect_error {row} s.
Arguments store_catalog {row} s.
Arguments read_error {row} s history stmt.
Arguments run_query {row} s _.
Arguments on_engine {row A} st m conn.
Arguments rows_as_tuples {value row} row_item headers rows.
Arguments main_body {value} str {row} row_item st conn.
Arguments main {value} str {row} row_item DB_PATH st.

(** ** Sample runs *)

Module Runs.

(** Rows as lists of named texts; [r[h]] is the first item of that name. *)
Definition named_row : Type := list (string * string).

Definition item (r : named_row) (h : string) : option string :=
  option_map snd (find (fun kv => String.eqb (fst kv) h) r).

Definition text (s : string) : string := s.

(** A database without an orders table. *)
Definition customers_only : store named_row :=
  mkStore true None [("customers", ["customer_id"; "name"])]
    (fun _ _ => None)
    (fun _ => inl (mkSqliteError true "not reached")).

(** Scenario A with an engine that answers every query with one row. *)
Definition one_row : store named_row :=
  mkStore true None Samples.scenario_A
    (fun _ _ => None)
    (fun _ => inr (["customer_id"; "total_amount"],
                   [[("customer_id", "CUST0001"); ("total_amount", "12.5")]])).

End Runs.

(** ** [ingest_to_sqlite.py]: [convert_value] and [ingest_csv] *)

(** The double quote that wraps identifiers in the generated SQL. *)
Definition dquote : string := String (ascii_of_nat 34) EmptyString.

Definition quoted (name : string) : string := dquote ++ name ++ dquote.

Section Ingest.

(** Python's [int] and [float], with the two conversions [convert_value]
    calls: [None] stands for a raised exception, which the function
    catches. *)
Variables integer real : Type.
Variable py_float : string -> option real.
Variable py_int : real -> option integer.

(** [str.strip()] *)
Variable py_strip : string -> string.

(** The values handed to SQLite. *)
Inductive sql_value : Type :=
| Null
| Int (n : integer)
| Real (x : real)
| Text (s : string).

(** [convert_value(col_type, value)], lines 80-95. *)
Definition convert_value (col_type : string) (value : option string) : sql_value :=
  match value with
  | None => Null
  | Some v =>
      if String.eqb v "" then Null
      else if String.eqb col_type "INTEGER" then
        match py_float v with
        | Some x => match py_int x with Some n => Int n | None => Null end
        | None => Null
        end
      else if String.eqb col_type "REAL" then
        match py_float v with
        | Some x => Real x
        | None => Null
        end
      else Text v
  end.

(** A row as [csv.DictReader] yields it: a dict from field names to texts,
    [None] under a field the line was too short to have. *)
Definition csv_row : Type := list (string * option string).

(** [r.get(col)] on such a dict: [None] when the key is absent. *)
Fixpoint dict_get (r : csv_row) (col : string) : option (option string) :=
  match r with
  | [] => None
  | (k, v) :: rest => if String.eqb k col then Some v else dict_get rest col
  end.

(** [col_types[col]] for the dict [{c[0]: c[1] for c in columns}]: the
    last column of that name gives the type. *)
Definition col_type_of (columns : list (string * string)) (col : string) : string :=
  match find (fun c => String.eqb (fst c) col) (rev columns) with
  | Some c => snd c
  | None => ""
  end.

(** The text [ingest_csv] converts for a column of a row: the stripped
    field, the stripped empty text when the CSV has no such column. *)
Definition field_text (r : csv_row) (col : string) : string :=
  py_strip match dict_get r col with
           | Some (Some s) => s
           | _ => ""
           end.

(** How a text is stored under a column type.  Nothing is stored for the
    empty text.  Under [INTEGER] a non-empty text is stored as the integer
    [int(float(text))] when both conversions succeed and as nothing when
    one of them raises; under [REAL] as [float(text)] when it converts and
    as nothing when it does not; under every other type name as the text
    itself. *)
Definition loaded_as (col_type text : string) (v : sql_value) : Prop :=
  (text = "" -> v = Null)
  /\ (text <> "" -> col_type = "INTEGER" ->
      (forall n, v = Int n <->
                 exists x, py_float text = Some x /\ py_int x = Some n)
      /\ (v = Null <->
          py_float text = None
          \/ exists x, py_float text = Some x /\ py_int x = None)
      /\ (v = Null \/ exists n, v = Int n))
  /\ (text <> "" -> col_type = "REAL" ->
      (forall x, v = Real x <-> py_float text = Some x)
      /\ (v = Null <-> py_float text = None)
      /\ (v = Null \/ exists x, v = Real x))
  /\ (text <> "" -> col_type <> "INTEGER" -> col_type <> "REAL" ->
      v = Text text).

(** A computation of [ingest_csv] that may stop on the [AttributeError] of
    [None.strip()]. *)
Inductive attempt (A : Type) : Type :=
| Done (a : A)
| AttributeError.
Arguments Done {A} a.
Arguments AttributeError {A}.

(** [convert_value(col_types[col], r.get(col, '').strip())], line 121. *)
Definition cell_value (columns : list (string * string)) (r : csv_row) (col : string)
  : attempt sql_value :=
  match dict_get r col with
  | None => Done (convert_value (col_type_of columns col) (Some (py_strip "")))
  | Some None => AttributeError
  | Some (Some s) => Done (convert_value (col_type_of columns col) (Some (py_strip s)))
  end.

(** The list comprehension of line 121 over the column names. *)
Fixpoint row_values (columns : list (string * string)) (r : csv_row)
         (col_names : list string) : attempt (list sql_value) :=
  match col_names with
  | [] => Done []
  | col :: rest =>
      match cell_value columns r col with
      | AttributeError => AttributeError
      | Done v =>
          match row_values columns r rest with
          | AttributeError => AttributeError
          | Done vs => Done (v :: vs)
          end
      end
  end.

(** The loop of lines 119-122. *)
Fixpoint all_values (columns : list (string * string)) (rows : list csv_row)
  : attempt (list (list sql_value)) :=
  match rows with
  | [] => Done []
  | r :: rest =>
      match row_values columns r (map fst columns) with
      | AttributeError => AttributeError
      | Done t =>
          match all_values columns rest with
          | AttributeError => AttributeError
          | Done ts => Done (t :: ts)
          end
      end
  end.

(** Lines 127-128. *)
Definition insert_statement (table : string) (col_names : list string) : string :=
  let placeholders := String.concat "," (repeat "?" (List.length col_names)) in
  "INSERT INTO " ++ quoted table ++ " (" ++ String.concat "," (map quoted col_names)
  ++ ") VALUES (" ++ placeholders ++ ")".

(** The exceptions other than the [AttributeError] of line 121. *)
Variable failure : Type.

(** The exception [conn.executemany] raises on a statement and its rows, if
    any: an error of the engine, or the [OverflowError] of an integer that
    does not fit the 64 bits of an SQLite [INTEGER].  The [with conn:]
    block around the call rolls back and lets it through. *)
Variable executemany : string -> list (list sql_value) -> option failure.

(** What a call of [ingest_csv] does: the count it returns, the warning
    it prints and the [executemany] it performs, if any; or the
    [AttributeError] it stops on; or another exception it stops on, with
    the [executemany] that raised it, if it came from there. *)
Inductive ingestion : Type :=
| Ingested (count : nat) (warning : option string)
           (insert : option (string * list (list sql_value)))
| IngestRaises
| IngestFails (e : failure) (insert : option (string * list (list sql_value))).

(** [ingest_csv(conn, csv_path, schema)] given whether the file exists, its
    full path, the rows the reader yields and the exception that opening
    or reading the file raises after them, if any.  Each row is converted
    as soon as it is read, so the [AttributeError] of a row comes before an
    exception of the reader. *)
Definition ingest_csv (file_found : bool) (full_path : string) (rows : list csv_row)
           (reader_error : option failure)
           (table : string) (columns : list (string * string)) : ingestion :=
  if negb file_found then
    Ingested 0 (Some ("Warning: " ++ full_path ++ " not found, skipping.")) None
  else
    match all_values columns rows with
    | AttributeError => IngestRaises
    | Done tuples =>
        match reader_error with
        | Some e => IngestFails e None
        | None =>
            match tuples with
            | [] => Ingested 0 None None
            | _ :: _ =>
                let insert_sql := insert_statement table (map fst columns) in
                match executemany insert_sql tuples with
                | Some e => IngestFails e (Some (insert_sql, tuples))
                | None =>
                    Ingested (List.length tuples) None (Some (insert_sql, tuples))
                end
            end
        end
    end.

End Ingest.

Arguments Null {integer real}.
Arguments Int {integer real} n.
Arguments Real {integer real} x.
Arguments Text {integer real} s.
Arguments Done {A} a.
Arguments AttributeError {A}.
Arguments loaded_as {integer real} py_float py_int col_type text v.
Arguments Ingested {integer real failure} count warning insert.
Arguments IngestRaises {integer real failure}.
Arguments IngestFails {integer real failure} e insert.

(** ** A sample load *)

Module Loads.

(** Numbers as [nat], with a conversion that knows one numeral. *)
Definition to_float (s : string) : option nat :=
  if String.eqb s "7" then Some 7 else None.

Definition to_int (x : nat) : option nat := Some x.

Definition columns : list (string * string) :=
  [("customer_id", "TEXT"); ("name", "TEXT"); ("visits", "INTEGER")].

(** Two rows of a CSV that has no [visits] column. *)
Definition rows : list csv_row :=
  [ [("customer_id", Some "CUST0001"); ("name", Some " Ann ")];
    [("customer_id", Some "CUST0002"); ("name", Some "")] ].

(** Two rows of a CSV that has one: a numeral between spaces, and a text
    that is no number. *)
Definition rows_with_visits : list csv_row :=
  [ [("customer_id", Some "CUST0001"); ("name", Some "Ann"); ("visits", Some " 7 ")];
    [("customer_id", Some "CUST0002"); ("name", Some "Bob"); ("visits", Some "many")] ].

(** An engine that accepts every insertion. *)
Definition accepts (stmt : string) (tuples : list (list (sql_value nat nat)))
  : option string := None.

Definition run : ingestion nat nat string :=
  ingest_csv nat nat to_float to_int strip string accepts
    true "customers.csv" rows None "customers" columns.

Definition run_with_visits : ingestion nat nat string :=
  ingest_csv nat nat to_float to_int strip string accepts
    true "customers.csv" rows_with_visits None "customers" columns.

End Loads.

(** ** Live SQL text *)











(** * Properties *)

(** ** Strings *)

Lemma string_app_assoc (a b c : string) : (a ++ b) ++ c = a ++ b ++ c.
Proof.
  induction a as [|x a IH]; simpl; [reflexivity | now rewrite IH].
Qed.





Lemma occurs_in_here (s post : string) : occurs_in s (s ++ post).
Proof. exists "", post; reflexivity. Qed.

Lemma occurs_in_skip (s p t : string) : occurs_in s t -> occurs_in s (p ++ t).
Proof.
  intros (pre & post & ->). exists (p ++ pre), post.
  now rewrite string_app_assoc.
Qed.

Lemma ends_with_skip (s p t : string) : ends_with s t -> ends_with s (p ++ t).
Proof.
  intros (pre & ->). exists (p ++ pre). now rewrite string_app_assoc.
Qed.

Lemma ends_with_refl (s : string) : ends_with s s.
Proof. exists ""; reflexivity. Qed.

(** ** Membership and candidate resolution *)

Lemma py_in_In (x : string) (l : list string) : py_in x l = true <-> In x l.
Proof.
  induction l as [|y l IH]; simpl.
  - split; [discriminate | tauto].
  - destruct (String.eqb x y) eqn:E.
    + apply String.eqb_eq in E. subst. tauto.
    + apply String.eqb_neq in E. rewrite IH. split; [tauto|].
      intros [H|H]; [congruence | exact H].
Qed.

Lemma py_in_false (x : string) (l : list string) : py_in x l = false <-> ~ In x l.
Proof.
  rewrite <- py_in_In. destruct (py_in x l); split; congruence.
Qed.

Lemma find_first_in_first_present (cols cands : list string) (c : string) :
  find_first_in cols cands = Some c <-> first_present cols cands c.
Proof.
  split.
  - induction cands as [|x cands IH]; simpl; [discriminate|].
    destruct (py_in x cols) eqn:E.
    + intros [= ->]. constructor. now apply py_in_In.
    + intros H. apply fp_later; [now apply py_in_false | auto].
  - induction 1 as [x rest Hin | x rest r Hnin _ IH]; simpl.
    + apply py_in_In in Hin. now rewrite Hin.
    + apply py_in_false in Hnin. now rewrite Hnin.
Qed.

Lemma find_first_in_none (cols cands : list string) :
  find_first_in cols cands = None <-> (forall c, In c cands -> ~ In c cols).
Proof.
  induction cands as [|x cands IH]; simpl.
  - split; [intros _ c [] | reflexivity].
  - destruct (py_in x cols) eqn:E.
    + split; [discriminate|]. intros H. exfalso.
      apply (H x); [now left | now apply py_in_In].
    + rewrite IH. apply py_in_false in E. split.
      * intros H c [<-|Hc]; auto.
      * intros H c Hc. apply H. now right.
Qed.

Lemma find_first_in_some_In (cols cands : list string) (c : string) :
  find_first_in cols cands = Some c -> In c cands /\ In c cols.
Proof.
  induction cands as [|x cands IH]; simpl; [discriminate|].
  destruct (py_in x cols) eqn:E.
  - intros [= ->]. split; [now left | now apply py_in_In].
  - intros H. destruct (IH H). tauto.
Qed.

Lemma find_first_in_nil (cands : list string) : find_first_in [] cands = None.
Proof. induction cands; simpl; auto. Qed.

(** ** Table lookup *)

Lemma find_table_some (tables : list string) (name t : string) :
  find_table tables name = Some t -> lower t = name /\ In t tables.
Proof.
  induction tables as [|x tables IH]; simpl; [discriminate|].
  destruct (String.eqb (lower x) name) eqn:E.
  - intros [= ->]. apply String.eqb_eq in E. tauto.
  - intros H. destruct (IH H). tauto.
Qed.

Lemma find_table_py_in (tables : list string) (name : string) :
  py_in name (map lower tables) = false <-> find_table tables name = None.
Proof.
  induction tables as [|x tables IH]; simpl; [tauto|].
  rewrite (String.eqb_sym name (lower x)).
  destruct (String.eqb (lower x) name); [split; discriminate | exact IH].
Qed.

Lemma find_table_guarded (tables : list string) (name : string) :
  (if py_in name (map lower tables) then find_table tables name else None)
  = find_table tables name.
Proof.
  destruct (py_in name (map lower tables)) eqn:E; [reflexivity|].
  symmetry. now apply find_table_py_in.
Qed.

Lemma truthy_find_table (tables : list string) (name : string) :
  name <> "" ->
  truthy (find_table tables name)
  = match find_table tables name with Some _ => true | None => false end.
Proof.
  intros Hne. destruct (find_table tables name) as [t|] eqn:E; [|reflexivity].
  simpl. destruct (String.eqb t "") eqn:Et; [|reflexivity].
  apply String.eqb_eq in Et. subst t.
  apply find_table_some in E. simpl in E. destruct E as [E _]. congruence.
Qed.

Lemma truthy_find_first_in (cols cands : list string) :
  ~ In "" cands ->
  truthy (find_first_in cols cands)
  = match find_first_in cols cands with Some _ => true | None => false end.
Proof.
  intros Hne. destruct (find_first_in cols cands) as [c|] eqn:E; [|reflexivity].
  simpl. destruct (String.eqb c "") eqn:Ec; [|reflexivity].
  apply String.eqb_eq in Ec. subst c.
  apply find_first_in_some_In in E. tauto.
Qed.

Lemma find_if_cols_eq (cols cands : list string) :
  find_if_cols cols cands = find_first_in cols cands.
Proof.
  unfold find_if_cols. destruct cols; simpl; [|reflexivity].
  symmetry. apply find_first_in_nil.
Qed.

(** ** Rules for [reads] *)

Lemma reads_ret {A : Type} (a : A) (cat : list table) : reads (ret a) cat (Returns a).
Proof. intros conn H. split; [reflexivity | exact H]. Qed.

Lemma reads_raise {A : Type} (e : exn) (cat : list table) :
  reads (@raise A e) cat (Raises e).
Proof. intros conn H. split; [reflexivity | exact H]. Qed.

Lemma reads_bind {A B : Type} (m : M A) (k : A -> M B) (cat : list table)
      (a : A) (w : outcome B) :
  reads m cat (Returns a) -> reads (k a) cat w -> reads (bind m k) cat w.
Proof.
  intros Hm Hk conn Hc. destruct (Hm conn Hc) as [Hr Ha].
  unfold result_of, after, bind in *.
  destruct (m conn) as [r conn']. simpl in Hr, Ha. subst r.
  apply (Hk conn' Ha).
Qed.

Lemma reads_bind_raise {A B : Type} (m : M A) (k : A -> M B) (cat : list table)
      (e : exn) :
  reads m cat (Raises e) -> reads (bind m k) cat (Raises e).
Proof.
  intros Hm conn Hc. destruct (Hm conn Hc) as [Hr Ha].
  unfold result_of, after, bind in *.
  destruct (m conn) as [r conn']. simpl in Hr, Ha. subst r.
  split; [reflexivity | exact Ha].
Qed.

Lemma reads_get_tables (cat : list table) :
  reads get_tables cat (Returns (map fst cat)).
Proof. intros conn <-. split; reflexivity. Qed.

Lemma reads_get_columns (t : option string) (cat : list table) :
  reads (get_columns t) cat (Returns (table_info cat (py_str t))).
Proof. intros conn <-. split; reflexivity. Qed.

Lemma reads_columns_if (name : string) (cat : list table) :
  name <> "" ->
  reads (columns_if (find_table (map fst cat) name)) cat
        (Returns (role_columns cat name)).
Proof.
  intros Hne. unfold columns_if, role_columns.
  rewrite truthy_find_table by exact Hne.
  destruct (find_table (map fst cat) name) as [t|].
  - apply (reads_get_columns (Some t)).
  - apply reads_ret.
Qed.

Lemma reads_first_or_index0 (cols cands : list string) (cat : list table) :
  ~ In "" cands ->
  reads (first_or_index0 cols cands) cat
        (match first_choice cols cands with
         | Some c => Returns c
         | None => Raises IndexError
         end).
Proof.
  intros Hne. unfold first_or_index0, first_choice.
  rewrite truthy_find_first_in by exact Hne.
  destruct (find_first_in cols cands) as [c|].
  - apply reads_ret.
  - destruct cols; simpl; [apply reads_raise | apply reads_ret].
Qed.

(** ** Resolution reads only the catalog *)

Lemma mandatory_columns (cat : list table) (name : string) :
  has_table cat name = true ->
  table_info cat (py_str (find_table (map fst cat) name)) = role_columns cat name.
Proof.
  unfold has_table, role_columns. intros H.
  destruct (find_table (map fst cat) name) as [t|] eqn:E; [reflexivity|].
  apply find_table_py_in in E. congruence.
Qed.

Lemma candidates_nonblank :
  ~ In "" CUSTOMER_ID_CANDIDATES /\ ~ In "" ORDER_ID_CANDIDATES /\
  ~ In "" PRODUCT_ID_CANDIDATES.
Proof.
  repeat split; simpl; intros H;
    repeat (destruct H as [H|H]; [discriminate H|]); exact H.
Qed.

Lemma reads_resolve (cat : list table) : reads resolve cat (bindings_of cat).
Proof.
  destruct candidates_nonblank as (Hcust & Hord & Hprod).
  unfold resolve, bindings_of.
  eapply reads_bind; [apply reads_get_tables|]. cbv zeta.
  rewrite !find_table_guarded.
  fold (has_table cat "customers"). fold (has_table cat "orders").
  destruct (has_table cat "customers") eqn:Hc; cbn [negb orb andb];
    [|apply reads_raise].
  destruct (has_table cat "orders") eqn:Ho; cbn [negb orb andb];
    [|apply reads_raise].
  eapply reads_bind; [apply reads_get_columns|].
  eapply reads_bind; [apply reads_get_columns|].
  rewrite !mandatory_columns by assumption.
  eapply reads_bind; [apply reads_columns_if; discriminate|].
  eapply reads_bind; [apply reads_columns_if; discriminate|].
  eapply reads_bind; [apply reads_columns_if; discriminate|].
  pose proof (reads_first_or_index0 (role_columns cat "customers")
                CUSTOMER_ID_CANDIDATES cat Hcust) as Rc.
  pose proof (reads_first_or_index0 (role_columns cat "orders")
                ORDER_ID_CANDIDATES cat Hord) as Ro.
  destruct (first_choice (role_columns cat "customers") CUSTOMER_ID_CANDIDATES)
    as [c|]; [|apply reads_bind_raise; exact Rc].
  eapply reads_bind; [exact Rc|].
  destruct (first_choice (role_columns cat "orders") ORDER_ID_CANDIDATES)
    as [o|]; [|apply reads_bind_raise; exact Ro].
  eapply reads_bind; [exact Ro|].
  rewrite !find_if_cols_eq.
  rewrite (truthy_find_first_in _ _ Hprod).
  destruct (find_first_in (role_columns cat "order_items") PRODUCT_ID_CANDIDATES);
    apply reads_ret.
Qed.

Lemma resolve_result (conn : connection) :
  result_of resolve conn = bindings_of (catalog conn).
Proof. apply (reads_resolve (catalog conn) conn eq_refl). Qed.

Lemma build_query_result (conn : connection) :
  result_of build_query conn =
  match result_of resolve conn with
  | Returns b => Returns (render b)
  | Raises e => Raises e
  end.
Proof.
  unfold result_of, build_query, bind, ret.
  destruct (resolve conn) as [[b|e] conn']; reflexivity.
Qed.

Lemma build_query_returns (conn : connection) (sql : string) :
  result_of build_query conn = Returns sql <->
  exists b, result_of resolve conn = Returns b /\ sql = render b.
Proof.
  rewrite build_query_result. destruct (result_of resolve conn) as [b|e].
  - split.
    + intros [= <-]. exists b; auto.
    + intros (b' & [= <-] & ->). reflexivity.
  - split; [discriminate | intros (b' & H & _); discriminate].
Qed.

(** ** The candidate resolver *)

Lemma resolve_spec_eq (cols cands : list string) :
  find_first_in cols cands = resolve_spec cols cands.
Proof.
  unfold resolve_spec.
  assert (E : forall c, py_in c cols = existsb (String.eqb c) cols).
  { intros c. induction cols as [|y cols IH]; simpl; [reflexivity|].
    rewrite IH. now destruct (String.eqb c y). }
  induction cands as [|c cands IH]; simpl; [reflexivity|].
  rewrite <- E, IH. reflexivity.
Qed.

(** C7. [find_first_in] is a total function that agrees with the reference
    resolver on every pair of lists: it answers [Some c] exactly when [c] is
    the first candidate, in candidate order, that occurs among the columns
    (equality of names being exact, letter case included), and [None]
    exactly when no candidate occurs; for candidates [a, b, c] and columns
    holding [b] and [c] but not [a] the answer is [b]. *)
Theorem find_first_in_refines_resolver :
  forall cols candidates : list string,
    find_first_in cols candidates = resolve_spec cols candidates
    /\ (forall c, find_first_in cols candidates = Some c
                  <-> first_present cols candidates c)
    /\ (find_first_in cols candidates = None
        <-> forall c, In c candidates -> ~ In c cols)
    /\ (forall a b c, ~ In a cols -> In b cols -> In c cols ->
                      find_first_in cols [a; b; c] = Some b)
    /\ find_first_in ["Name"] ["name"] = None.
Proof.
  intros cols cands. split; [apply resolve_spec_eq|].
  split; [intros c; apply find_first_in_first_present|].
  split; [apply find_first_in_none|].
  split; [|reflexivity].
  intros a b c Ha Hb _. apply find_first_in_first_present.
  apply fp_later; [exact Ha|]. now apply fp_here.
Qed.

(** ** The mandatory tables *)

Lemma has_table_present (cat : list table) (name : string) :
  has_table cat name = true <-> present cat name.
Proof.
  unfold has_table, present. rewrite py_in_In, in_map_iff.
  split; intros (t & H1 & H2); exists t; tauto.
Qed.

Lemma insufficient_has_table (cat : list table) :
  insufficient cat <->
  has_table cat "customers" && has_table cat "orders" = false.
Proof.
  unfold insufficient. rewrite <- !has_table_present.
  destruct (has_table cat "customers"), (has_table cat "orders"); simpl;
    intuition congruence.
Qed.

Lemma bindings_of_cases (cat : list table) :
  (insufficient cat /\
   bindings_of cat =
   Raises (RuntimeError
             "Database must have at least 'customers' and 'orders' tables."))
  \/ (~ insufficient cat /\
      (bindings_of cat = Raises IndexError \/ exists b, bindings_of cat = Returns b)).
Proof.
  unfold bindings_of. rewrite insufficient_has_table.
  destruct (has_table cat "customers" && has_table cat "orders").
  - right. split; [discriminate|].
    destruct (first_choice _ CUSTOMER_ID_CANDIDATES); [|now left].
    destruct (first_choice _ ORDER_ID_CANDIDATES); [|now left].
    right. eexists; reflexivity.
  - left. split; reflexivity.
Qed.

(** C2. [build_query] raises the runtime error of the table check exactly
    when no table named customers, or no table named orders, is in the
    catalog, names being compared after lower-casing and whatever other
    tables there are; in that case it returns no query text. *)
Theorem build_query_raises_iff_insufficient :
  forall conn : connection,
    ((exists msg, result_of build_query conn = Raises (RuntimeError msg))
     <-> insufficient (catalog conn))
    /\ (insufficient (catalog conn) <->
        result_of build_query conn =
        Raises (RuntimeError
                  "Database must have at least 'customers' and 'orders' tables."))
    /\ ((exists msg, result_of build_query conn = Raises (RuntimeError msg)) ->
        forall sql, result_of build_query conn <> Returns sql).
Proof.
  intros conn. rewrite build_query_result, resolve_result.
  destruct (bindings_of_cases (catalog conn)) as [[Hi ->] | [Hs [-> | [b ->]]]].
  - repeat split; auto; try discriminate. intros _. eexists; reflexivity.
  - repeat split; try tauto; try discriminate.
    + intros [msg H]; discriminate.
  - repeat split; try tauto; try discriminate.
    + intros [msg H]; discriminate.
    + intros [msg H]; discriminate.
Qed.

(** ** Role binding *)

Lemma role_columns_has_table (cat : list table) (name : string) :
  role_columns cat name <> [] -> has_table cat name = true.
Proof.
  unfold role_columns, has_table. intros H.
  destruct (py_in name (map lower (map fst cat))) eqn:E; [reflexivity|].
  apply find_table_py_in in E. rewrite E in H. now elim H.
Qed.

(** C3, counterexample.  With customers(cid, name) no candidate of the
    customer-id role matches, yet the role is bound to the column [cid]
    instead of being absent. *)
Lemma id_roles_not_as_specified :
  ~ id_roles_as_specified (connect Samples.unmatched_ids).
Proof.
  unfold id_roles_as_specified. intros H.
  assert (E : exists b, result_of resolve (connect Samples.unmatched_ids) = Returns b
                        /\ cust_id_col b = "cid").
  { eexists. split; vm_compute; reflexivity. }
  destruct E as (b & E & Hc). destruct (H b E) as [H1 _].
  unfold bound_as_specified in H1. rewrite Hc in H1.
  vm_compute in H1. discriminate H1.
Qed.

(** C3, amended.  When the customers and the orders table each have at
    least one column, resolution succeeds and binds every role to the first
    candidate, in list order, present in the columns it is looked up in.
    When no candidate matches, customer-id and order-id are bound to the
    first column of their table, and every other role is absent.  Product-id
    is looked up in the columns of order_items and, when absent there, in
    those of orders. *)
Theorem roles_bound_to_first_candidate_or_first_column :
  forall (conn : connection) (c0 o0 : string) (crest orest : list string),
    role_columns (catalog conn) "customers" = c0 :: crest ->
    role_columns (catalog conn) "orders" = o0 :: orest ->
    exists b,
      result_of resolve conn = Returns b
      /\ cust_id_col b =
         match resolve_spec (c0 :: crest) CUSTOMER_ID_CANDIDATES with
         | Some c => c
         | None => c0
         end
      /\ order_id_col b =
         match resolve_spec (o0 :: orest) ORDER_ID_CANDIDATES with
         | Some c => c
         | None => o0
         end
      /\ product_id_col b =
         match resolve_spec (role_columns (catalog conn) "order_items")
                 PRODUCT_ID_CANDIDATES with
         | Some c => Some c
         | None => resolve_spec (o0 :: orest) PRODUCT_ID_CANDIDATES
         end
      /\ product_name_col b =
         resolve_spec (role_columns (catalog conn) "products") PRODUCT_NAME_CANDIDATES
      /\ quantity_col b =
         resolve_spec (role_columns (catalog conn) "order_items") QUANTITY_CANDIDATES
      /\ subtotal_col b =
         resolve_spec (role_columns (catalog conn) "order_items") SUBTOTAL_CANDIDATES
      /\ order_total_col b = resolve_spec (o0 :: orest) ORDER_TOTAL_CANDIDATES
      /\ rating_col b =
         resolve_spec (role_columns (catalog conn) "reviews") REVIEW_RATING_CANDIDATES.
Proof.
  intros conn c0 o0 crest orest Hc Ho.
  rewrite resolve_result. unfold bindings_of.
  rewrite !role_columns_has_table by (rewrite ?Hc, ?Ho; discriminate).
  cbn [andb]. rewrite Hc, Ho. unfold first_choice.
  rewrite <- !resolve_spec_eq.
  destruct (find_first_in (c0 :: crest) CUSTOMER_ID_CANDIDATES);
    destruct (find_first_in (o0 :: orest) ORDER_ID_CANDIDATES);
    cbn [hd_error]; eexists; (split; [reflexivity|]); cbn;
    repeat split; reflexivity.
Qed.

Lemma roles_bound_witness :
  exists b, result_of resolve (connect Samples.unmatched_ids) = Returns b
            /\ cust_id_col b = "cid" /\ order_id_col b = "oid".
Proof.
  destruct (roles_bound_to_first_candidate_or_first_column
              (connect Samples.unmatched_ids) "cid" "oid" ["name"]
              ["customer_id"; "order_date"; "total"] eq_refl eq_refl)
    as (b & Hb & Hc & Ho & _).
  exists b. split; [exact Hb|]. split; [exact Hc | exact Ho].
Defined.

(** ** The Minimal tier *)

Lemma unmatched_none (cols cands : list string) :
  unmatched cols -> incl cands all_candidates -> find_first_in cols cands = None.
Proof.
  intros Hu Hi. apply find_first_in_none. intros c Hc Hin.
  apply (Hu c Hin). apply Hi. exact Hc.
Qed.

Lemma candidates_incl :
  incl CUSTOMER_ID_CANDIDATES all_candidates /\
  incl ORDER_ID_CANDIDATES all_candidates /\
  incl PRODUCT_ID_CANDIDATES all_candidates /\
  incl ORDER_TOTAL_CANDIDATES all_candidates.
Proof.
  repeat split; intros x Hx; simpl in Hx;
    repeat (destruct Hx as [<-|Hx]; [vm_compute; tauto|]); elim Hx.
Qed.

Lemma py_or_find_first_in (cols cands : list string) (d : string) :
  ~ In "" cands ->
  py_or (find_first_in cols cands) d = or_default (find_first_in cols cands) d.
Proof.
  intros Hne. unfold py_or. rewrite truthy_find_first_in by exact Hne.
  now destruct (find_first_in cols cands).
Qed.

Lemma order_total_nonblank : ~ In "" ORDER_TOTAL_CANDIDATES.
Proof.
  simpl. intros H. repeat (destruct H as [H|H]; [discriminate H|]). exact H.
Qed.

Lemma bindings_of_customers_orders
      (cat : list table) (tc to c0 o0 : string) (crest orest : list string) :
  lower tc = "customers" -> lower to = "orders" ->
  cat = [(tc, c0 :: crest); (to, o0 :: orest)]
  \/ cat = [(to, o0 :: orest); (tc, c0 :: crest)] ->
  bindings_of cat =
  Returns (mkBindings (Some tc) (Some to) None None None
             (or_default (find_first_in (c0 :: crest) CUSTOMER_ID_CANDIDATES) c0)
             (or_default (find_first_in (o0 :: orest) ORDER_ID_CANDIDATES) o0)
             (find_first_in (o0 :: orest) PRODUCT_ID_CANDIDATES)
             None None None
             (find_first_in (o0 :: orest) ORDER_TOTAL_CANDIDATES)
             None).
Proof.
  intros Htc Hto Hcat.
  assert (Hne : String.eqb tc to = false).
  { apply String.eqb_neq. intros ->. rewrite Htc in Hto. discriminate Hto. }
  assert (Hne' : String.eqb to tc = false) by now rewrite String.eqb_sym.
  destruct Hcat as [-> | ->];
    unfold bindings_of, has_table, role_columns, first_choice;
    cbn [map fst find_table py_in]; rewrite Htc, Hto;
    cbn -[find_first_in];
    rewrite ?String.eqb_refl, ?Hne, ?Hne';
    rewrite !find_first_in_nil;
    destruct (find_first_in (c0 :: crest) CUSTOMER_ID_CANDIDATES);
    destruct (find_first_in (o0 :: orest) ORDER_ID_CANDIDATES);
    reflexivity.
Qed.

(** C6.  On a catalog holding exactly a customers table and an orders table
    (in either order, names compared up to letter case), each with at least
    one column, [build_query] succeeds, takes the Minimal branch and returns
    the left join of customers to orders that projects the customer id, the
    literal column [name], the order id, the literal column [order_date] and
    the resolved order-total column or else the literal [total_amount],
    capped at 50 rows.  When no column matches any candidate list, the id
    columns are the first columns of the two tables and the total is the
    literal [total_amount]. *)
Theorem minimal_tier_on_customers_and_orders :
  forall (conn : connection) (tc to c0 o0 : string) (crest orest : list string),
    lower tc = "customers" -> lower to = "orders" ->
    catalog conn = [(tc, c0 :: crest); (to, o0 :: orest)]
    \/ catalog conn = [(to, o0 :: orest); (tc, c0 :: crest)] ->
    selects conn Minimal
    /\ result_of build_query conn =
       Returns
         (minimal_query_text tc to
            (or_default (resolve_spec (c0 :: crest) CUSTOMER_ID_CANDIDATES) c0)
            (or_default (resolve_spec (o0 :: orest) ORDER_ID_CANDIDATES) o0)
            (or_default (resolve_spec (o0 :: orest) ORDER_TOTAL_CANDIDATES)
               "total_amount"))
    /\ (unmatched (c0 :: crest) -> unmatched (o0 :: orest) ->
        result_of build_query conn =
        Returns (minimal_query_text tc to c0 o0 "total_amount")).
Proof.
  intros conn tc to c0 o0 crest orest Htc Hto Hcat.
  pose proof (bindings_of_customers_orders _ _ _ _ _ _ _ Htc Hto Hcat) as Hb.
  assert (Hq : result_of build_query conn =
               Returns
                 (minimal_query_text tc to
                    (or_default (resolve_spec (c0 :: crest) CUSTOMER_ID_CANDIDATES) c0)
                    (or_default (resolve_spec (o0 :: orest) ORDER_ID_CANDIDATES) o0)
                    (or_default (resolve_spec (o0 :: orest) ORDER_TOTAL_CANDIDATES)
                       "total_amount"))).
  { rewrite build_query_result, resolve_result, Hb. rewrite <- !resolve_spec_eq.
    unfold render, select_tier. cbn [t_order_items t_products truthy andb].
    rewrite Bool.andb_false_r. cbn [andb].
    unfold minimal_sql. cbn [t_customers t_orders cust_id_col order_id_col
                               order_total_col py_str].
    rewrite (py_or_find_first_in _ _ _ order_total_nonblank). reflexivity. }
  split; [|split].
  - eexists. rewrite resolve_result. split; [exact Hb|].
    unfold select_tier. cbn [t_order_items t_products truthy andb].
    now rewrite Bool.andb_false_r.
  - exact Hq.
  - intros Huc Huo. rewrite Hq. rewrite <- !resolve_spec_eq.
    destruct candidates_incl as (Ic & Io & Ip & It).
    rewrite (unmatched_none _ _ Huc Ic), (unmatched_none _ _ Huo Io),
      (unmatched_none _ _ Huo It). reflexivity.
Qed.

Lemma minimal_tier_witness :
  selects (connect Samples.unmatched_columns) Minimal
  /\ result_of build_query (connect Samples.unmatched_columns) =
     Returns (minimal_query_text "Customers" "Orders" "cid" "oid" "total_amount").
Proof.
  destruct (minimal_tier_on_customers_and_orders
              (connect Samples.unmatched_columns) "Customers" "Orders" "cid" "oid"
              ["full_name"] ["cust"; "placed_at"; "grand_total"]
              eq_refl eq_refl (or_intror eq_refl)) as (Hs & Hq & _).
  split; [exact Hs | exact Hq].
Defined.

(** ** Adding an order_items table *)

Section AddOrderItems.

Variables (pre post : list table) (toi : string) (oi_cols : list string).
Hypothesis Htoi : lower toi = "order_items".








End AddOrderItems.



(** ** Finding the end of a text *)

Ltac find_suffix :=
  first [ apply ends_with_refl | apply ends_with_skip; find_suffix ].

(** ** Determinism *)

Lemma reads_build_query (cat : list table) :
  reads build_query cat
        (match bindings_of cat with
         | Returns b => Returns (render b)
         | Raises e => Raises e
         end).
Proof.
  unfold build_query. pose proof (reads_resolve cat) as R.
  destruct (bindings_of cat) as [b|e].
  - eapply reads_bind; [exact R | apply reads_ret].
  - apply reads_bind_raise. exact R.
Qed.

(** C9.  [build_query] leaves the catalog as it found it, and its outcome
    is a function of the catalog alone: a second invocation on the same
    connection, and an invocation on any other connection to a store with
    the same catalog, return the very same text (or raise the same
    error). *)
Theorem build_query_is_deterministic :
  forall conn : connection,
    catalog (after build_query conn) = catalog conn
    /\ result_of build_query (after build_query conn) = result_of build_query conn
    /\ (forall conn2, catalog conn2 = catalog conn ->
                      result_of build_query conn2 = result_of build_query conn).
Proof.
  intros conn.
  destruct (reads_build_query (catalog conn) conn eq_refl) as [Hr Ha].
  split; [exact Ha|]. split.
  - destruct (reads_build_query (catalog conn) _ Ha) as [Hr' _]. congruence.
  - intros conn2 H2.
    destruct (reads_build_query (catalog conn) conn2 H2) as [Hr2 _]. congruence.
Qed.

(** ** The join conditions *)

(** C10.  In a Full-tier query the orders side of the customers-orders join
    is the fixed column [customer_id], the order_items side of the
    orders-order_items join is the fixed column [order_id] (and its side of
    the products join the fixed [product_id]), and in a Full- or
    Degraded-tier query the reviews side of the reviews join is the fixed
    pair [customer_id], [product_id].  Only the columns written after the
    aliases [c], [o] and [p] come from the role binding. *)
Theorem join_sides_use_literal_columns :
  forall (conn : connection) (b : bindings),
    result_of resolve conn = Returns b ->
    (select_tier b = Full ->
     exists sql,
       result_of build_query conn = Returns sql
       /\ ends_with
            (full_joins (py_str (t_customers b)) (py_str (t_orders b))
               (py_str (t_order_items b)) (py_str (t_products b))
               (py_str (t_reviews b))
               (cust_id_col b) (order_id_col b)
               (py_or (product_id_col b) "product_id"))
            sql)
    /\ (select_tier b = Degraded ->
        exists sql,
          result_of build_query conn = Returns sql
          /\ ends_with
               (degraded_joins (py_str (t_customers b)) (py_str (t_orders b))
                  (py_str (t_products b)) (py_str (t_reviews b))
                  (cust_id_col b) (py_str (product_id_col b)))
               sql).
Proof.
  intros conn b Hb.
  assert (Hq : result_of build_query conn = Returns (render b))
    by (rewrite build_query_result, Hb; reflexivity).
  split; intros Ht; exists (render b); (split; [exact Hq|]);
    unfold render; rewrite Ht.
  - unfold full_sql, full_joins, limit_clause. find_suffix.
  - unfold degraded_sql, degraded_joins, limit_clause. find_suffix.
Qed.

Lemma join_sides_witness :
  exists sql,
    result_of build_query (connect Samples.products_keyed_by_id) = Returns sql
    /\ ends_with
         (full_joins "Customers" "Orders" "Order_Items" "Products" "Reviews"
            "customer_id" "order_id" "product_id")
         sql.
Proof.
  apply (join_sides_use_literal_columns
           (connect Samples.products_keyed_by_id)
           (mkBindings (Some "Customers") (Some "Orders") (Some "Products")
              (Some "Order_Items") (Some "Reviews") "customer_id" "order_id"
              (Some "product_id") (Some "name") (Some "qty") (Some "line_total")
              None (Some "stars"))
           eq_refl).
  reflexivity.
Defined.

(** ** The products join *)

Lemma occurs_in_prefix (s t post : string) : t = s ++ post -> occurs_in s t.
Proof. intros ->. apply occurs_in_here. Qed.

Ltac find_occurrence :=
  first [ solve [ eapply occurs_in_prefix; rewrite !string_app_assoc; reflexivity ]
        | apply occurs_in_skip; find_occurrence ].

Lemma py_or_nonblank (x : option string) (d : string) :
  x <> Some "" -> py_or x d = or_default x d.
Proof.
  unfold py_or. destruct x as [c|]; simpl; [|reflexivity].
  intros H. destruct (String.eqb c "") eqn:E; [|reflexivity].
  apply String.eqb_eq in E. subst c. now elim H.
Qed.

Lemma product_id_role_nonblank (cat : list table) : product_id_role cat <> Some "".
Proof.
  destruct candidates_nonblank as (_ & _ & Hp).
  unfold product_id_role. rewrite <- !resolve_spec_eq.
  destruct (find_first_in (role_columns cat "order_items") PRODUCT_ID_CANDIDATES)
    as [c|] eqn:E.
  - intros [= ->]. apply find_first_in_some_In in E. tauto.
  - intros H. apply find_first_in_some_In in H. tauto.
Qed.

Lemma resolve_product_id (conn : connection) (b : bindings) :
  result_of resolve conn = Returns b ->
  product_id_col b = product_id_role (catalog conn).
Proof.
  rewrite resolve_result. unfold bindings_of, product_id_role.
  rewrite <- !resolve_spec_eq.
  destruct (has_table _ "customers" && has_table _ "orders"); [|discriminate].
  destruct (first_choice _ CUSTOMER_ID_CANDIDATES); [|discriminate].
  destruct (first_choice _ ORDER_ID_CANDIDATES); [|discriminate].
  intros [= <-]. reflexivity.
Qed.




(** ** The tables a query reads *)

(** C1.  On scenario B of the specification (customers, orders with a
    product id, products; no reviews table) the Degraded-tier query joins a
    table named [None], and so does the Full-tier query once line items are
    added: the query names a table that is not in the catalog. *)
Theorem reviews_join_names_a_missing_table :
  (exists sql,
      result_of build_query (connect Samples.scenario_B) = Returns sql
      /\ selects (connect Samples.scenario_B) Degraded
      /\ from_join_tables sql = ["customers"; "orders"; "products"; "None"]
      /\ ~ reads_catalog_tables Samples.scenario_B sql)
  /\ (exists sql,
         result_of build_query (connect Samples.line_items_without_reviews)
         = Returns sql
         /\ selects (connect Samples.line_items_without_reviews) Full
         /\ from_join_tables sql
            = ["customers"; "orders"; "order_items"; "products"; "None"]
         /\ ~ reads_catalog_tables Samples.line_items_without_reviews sql).
Proof.
  split; eexists; (split; [vm_compute; reflexivity|]);
    (split; [eexists; split; vm_compute; reflexivity|]);
    (split; [vm_compute; reflexivity|]);
    intros H; specialize (H "None"); vm_compute in H;
    intuition discriminate.
Qed.

(** The same on every catalog: whenever the Full or the Degraded branch is
    taken and there is no reviews table, the reviews join names the table
    [None]. *)
Lemma reviews_join_without_reviews_table (conn : connection) (b : bindings) :
  result_of resolve conn = Returns b ->
  t_reviews b = None ->
  select_tier b <> Minimal ->
  result_of build_query conn = Returns (render b)
  /\ occurs_in (nl ++ "        LEFT JOIN None r ON r.customer_id = c.") (render b).
Proof.
  intros Hb Hr Ht. split; [rewrite build_query_result, Hb; reflexivity|].
  unfold render. destruct (select_tier b); [| |now elim Ht].
  - unfold full_sql. rewrite Hr. cbn [py_str]. find_occurrence.
  - unfold degraded_sql. rewrite Hr. cbn [py_str]. find_occurrence.
Qed.

(** ** The end-to-end scenarios of the specification *)

Example scenario_A_is_minimal :
  selects (connect Samples.scenario_A) Minimal
  /\ result_of build_query (connect Samples.scenario_A)
     = Returns (minimal_query_text "customers" "orders" "customer_id" "order_id"
                  "total_amount").
Proof. split; [eexists; split|]; vm_compute; reflexivity. Qed.

Example scenario_B_is_degraded :
  selects (connect Samples.scenario_B) Degraded
  /\ exists sql,
       result_of build_query (connect Samples.scenario_B) = Returns sql
       /\ contains "1 AS quantity" sql = true
       /\ contains "o.total_amount AS subtotal" sql = true.
Proof.
  split; [eexists; split; vm_compute; reflexivity|].
  eexists. split; [vm_compute; reflexivity|]. split; vm_compute; reflexivity.
Qed.

Example scenario_C_is_full :
  selects (connect Samples.scenario_C) Full
  /\ exists sql,
       result_of build_query (connect Samples.scenario_C) = Returns sql
       /\ contains "r.rating" sql = true
       /\ reads_catalog_tables Samples.scenario_C sql.
Proof.
  split; [eexists; split; vm_compute; reflexivity|].
  eexists. split; [vm_compute; reflexivity|]. split; [vm_compute; reflexivity|].
  intros t H. vm_compute in H. vm_compute. tauto.
Qed.

(** The reads [build_query] sends to the store, in order. *)
Example scenario_C_statements :
  executed (after build_query (connect Samples.scenario_C))
  = [ "SELECT name FROM sqlite_master WHERE type='table';";
      "PRAGMA table_info(orders);"; "PRAGMA table_info(customers);";
      "PRAGMA table_info(products);"; "PRAGMA table_info(order_items);";
      "PRAGMA table_info(reviews);" ].
Proof. reflexivity. Qed.

(** * Further properties of [build_query] *)

(** ** The bindings as functions of the catalog *)

Lemma resolve_fields (conn : connection) (b : bindings) :
  result_of resolve conn = Returns b ->
  let cat := catalog conn in
  let tables := map fst cat in
  t_customers b = find_table tables "customers"
  /\ t_orders b = find_table tables "orders"
  /\ t_products b = find_table tables "products"
  /\ t_order_items b = find_table tables "order_items"
  /\ t_reviews b = find_table tables "reviews"
  /\ Some (cust_id_col b)
     = first_choice (role_columns cat "customers") CUSTOMER_ID_CANDIDATES
  /\ Some (order_id_col b)
     = first_choice (role_columns cat "orders") ORDER_ID_CANDIDATES
  /\ product_name_col b
     = find_first_in (role_columns cat "products") PRODUCT_NAME_CANDIDATES
  /\ quantity_col b
     = find_first_in (role_columns cat "order_items") QUANTITY_CANDIDATES
  /\ subtotal_col b
     = find_first_in (role_columns cat "order_items") SUBTOTAL_CANDIDATES
  /\ order_total_col b
     = find_first_in (role_columns cat "orders") ORDER_TOTAL_CANDIDATES
  /\ rating_col b
     = find_first_in (role_columns cat "reviews") REVIEW_RATING_CANDIDATES
  /\ has_table cat "customers" = true
  /\ has_table cat "orders" = true.
Proof.
  rewrite resolve_result. unfold bindings_of. cbv zeta.
  destruct (has_table _ "customers"); [|discriminate].
  destruct (has_table _ "orders"); [|discriminate]. cbn [andb].
  destruct (first_choice _ CUSTOMER_ID_CANDIDATES); [|discriminate].
  destruct (first_choice _ ORDER_ID_CANDIDATES); [|discriminate].
  intros [= <-]. cbn. repeat split; reflexivity.
Qed.

Lemma present_find_table (cat : list table) (name : string) :
  present cat name <-> find_table (map fst cat) name <> None.
Proof.
  rewrite <- has_table_present. unfold has_table.
  destruct (py_in name (map lower (map fst cat))) eqn:E.
  - split; [|reflexivity]. intros _ H. apply find_table_py_in in H. congruence.
  - apply find_table_py_in in E. split; [discriminate | congruence].
Qed.

Lemma role_columns_absent (cat : list table) (name : string) :
  ~ present cat name -> role_columns cat name = [].
Proof.
  rewrite present_find_table. unfold role_columns.
  destruct (find_table (map fst cat) name); [intros H; now elim H | reflexivity].
Qed.




(** ** Which branch is taken *)

Lemma truthy_table_present (conn : connection) (name : string) :
  name <> "" ->
  truthy (find_table (map fst (catalog conn)) name) = true
  <-> present (catalog conn) name.
Proof.
  intros Hne. rewrite truthy_find_table by exact Hne. rewrite present_find_table.
  destruct (find_table (map fst (catalog conn)) name); split; congruence.
Qed.



(** ** When [build_query] fails *)

Lemma first_choice_none (cols cands : list string) :
  first_choice cols cands = None <-> cols = [].
Proof.
  unfold first_choice. split.
  - destruct (find_first_in cols cands); [discriminate|].
    destruct cols; [reflexivity | discriminate].
  - intros ->. now rewrite find_first_in_nil.
Qed.

(** X2.  Beyond the table check, [build_query] has one more way to fail:
    the subscript [cols[0]] of lines 62-63 raises [IndexError] exactly when
    both mandatory tables are there and one of them reports no column.  In
    every other case with both tables present a query text is returned. *)
Theorem build_query_index_error_iff_no_columns :
  forall conn : connection,
    (result_of build_query conn = Raises IndexError <->
     ~ insufficient (catalog conn)
     /\ (role_columns (catalog conn) "customers" = []
         \/ role_columns (catalog conn) "orders" = []))
    /\ ((exists sql, result_of build_query conn = Returns sql) <->
        ~ insufficient (catalog conn)
        /\ role_columns (catalog conn) "customers" <> []
        /\ role_columns (catalog conn) "orders" <> []).
Proof.
  intros conn. rewrite build_query_result, resolve_result.
  unfold bindings_of. rewrite insufficient_has_table.
  destruct (has_table (catalog conn) "customers" && has_table (catalog conn) "orders").
  - pose proof (first_choice_none (role_columns (catalog conn) "customers")
                  CUSTOMER_ID_CANDIDATES) as Hc.
    pose proof (first_choice_none (role_columns (catalog conn) "orders")
                  ORDER_ID_CANDIDATES) as Ho.
    destruct (first_choice _ CUSTOMER_ID_CANDIDATES) as [c|];
      destruct (first_choice _ ORDER_ID_CANDIDATES) as [o|].
    + assert (Nc : role_columns (catalog conn) "customers" <> [])
        by (intros E; apply Hc in E; discriminate E).
      assert (No : role_columns (catalog conn) "orders" <> [])
        by (intros E; apply Ho in E; discriminate E).
      split; split.
      * discriminate.
      * intros (_ & [E|E]); contradiction.
      * intros _. split; [discriminate | tauto].
      * intros _. eexists; reflexivity.
    + assert (Eo : role_columns (catalog conn) "orders" = []) by now apply Ho.
      split; split.
      * intros _. split; [discriminate | tauto].
      * reflexivity.
      * intros (sql & H). discriminate H.
      * intros (_ & _ & H). contradiction.
    + assert (Ec : role_columns (catalog conn) "customers" = []) by now apply Hc.
      split; split.
      * intros _. split; [discriminate | tauto].
      * reflexivity.
      * intros (sql & H). discriminate H.
      * intros (_ & H & _). contradiction.
    + assert (Ec : role_columns (catalog conn) "customers" = []) by now apply Hc.
      split; split.
      * intros _. split; [discriminate | tauto].
      * reflexivity.
      * intros (sql & H). discriminate H.
      * intros (_ & H & _). contradiction.
  - split; split; try discriminate.
    + intros (H & _). now elim H.
    + intros (sql & H). discriminate H.
    + intros (H & _). now elim H.
Qed.

(** ** What [build_query] sends to the store *)

Lemma traces_ret {A : Type} (a : A) (cat : list table) :
  traces (ret a) cat (Returns a) [].
Proof.
  intros [c e] H. simpl in H. subst c. unfold ret. simpl.
  now rewrite app_nil_r.
Qed.

Lemma traces_raise {A : Type} (e : exn) (cat : list table) :
  traces (@raise A e) cat (Raises e) [].
Proof.
  intros [c ex] H. simpl in H. subst c. unfold raise. simpl.
  now rewrite app_nil_r.
Qed.

Lemma traces_bind {A B : Type} (m : M A) (k : A -> M B) (cat : list table)
      (a : A) (w : outcome B) (s1 s2 : list string) :
  traces m cat (Returns a) s1 -> traces (k a) cat w s2 ->
  traces (bind m k) cat w (s1 ++ s2)%list.
Proof.
  intros Hm Hk conn Hc. unfold bind. rewrite (Hm conn Hc).
  rewrite (Hk (mkConnection cat (executed conn ++ s1)%list) eq_refl).
  simpl. now rewrite app_assoc.
Qed.

Lemma traces_bind_raise {A B : Type} (m : M A) (k : A -> M B) (cat : list table)
      (e : exn) (s : list string) :
  traces m cat (Raises e) s -> traces (bind m k) cat (Raises e) s.
Proof.
  intros Hm conn Hc. unfold bind. now rewrite (Hm conn Hc).
Qed.

Lemma traces_get_tables (cat : list table) :
  traces get_tables cat (Returns (map fst cat)) [list_tables_stmt].
Proof. intros conn <-. reflexivity. Qed.

Lemma traces_get_columns (t : option string) (cat : list table) :
  traces (get_columns t) cat (Returns (table_info cat (py_str t)))
         [table_info_stmt (py_str t)].
Proof. intros conn <-. reflexivity. Qed.

Lemma traces_columns_if (name : string) (cat : list table) :
  name <> "" ->
  traces (columns_if (find_table (map fst cat) name)) cat
         (Returns (role_columns cat name)) (optional_read cat name).
Proof.
  intros Hne. unfold columns_if, role_columns, optional_read.
  rewrite truthy_find_table by exact Hne.
  destruct (find_table (map fst cat) name) as [t|].
  - apply (traces_get_columns (Some t)).
  - apply traces_ret.
Qed.

Lemma traces_first_or_index0 (cols cands : list string) (cat : list table) :
  ~ In "" cands ->
  traces (first_or_index0 cols cands) cat
         (match first_choice cols cands with
          | Some c => Returns c
          | None => Raises IndexError
          end) [].
Proof.
  intros Hne. unfold first_or_index0, first_choice.
  rewrite truthy_find_first_in by exact Hne.
  destruct (find_first_in cols cands) as [c|].
  - apply traces_ret.
  - destruct cols; simpl; [apply traces_raise | apply traces_ret].
Qed.

Lemma traces_resolve (cat : list table) :
  traces resolve cat (bindings_of cat) (statements_of cat).
Proof.
  destruct candidates_nonblank as (Hcust & Hord & Hprod).
  unfold resolve, bindings_of, statements_of.
  eapply (traces_bind _ _ _ _ _ [_]); [apply traces_get_tables|]. cbv zeta.
  rewrite !find_table_guarded.
  fold (has_table cat "customers"). fold (has_table cat "orders").
  destruct (has_table cat "customers") eqn:Hc; cbn [negb orb andb];
    [|apply traces_raise].
  destruct (has_table cat "orders") eqn:Ho; cbn [negb orb andb];
    [|apply traces_raise].
  eapply (traces_bind _ _ _ _ _ [_]); [apply traces_get_columns|].
  eapply (traces_bind _ _ _ _ _ [_]); [apply traces_get_columns|].
  rewrite !mandatory_columns by assumption.
  eapply traces_bind; [apply traces_columns_if; discriminate|].
  eapply traces_bind; [apply traces_columns_if; discriminate|].
  rewrite <- (app_nil_r (optional_read cat "reviews")).
  eapply traces_bind; [apply traces_columns_if; discriminate|].
  pose proof (traces_first_or_index0 (role_columns cat "customers")
                CUSTOMER_ID_CANDIDATES cat Hcust) as Rc.
  pose proof (traces_first_or_index0 (role_columns cat "orders")
                ORDER_ID_CANDIDATES cat Hord) as Ro.
  destruct (first_choice (role_columns cat "customers") CUSTOMER_ID_CANDIDATES)
    as [c|]; [|apply traces_bind_raise; exact Rc].
  eapply (traces_bind _ _ _ _ _ [] []); [exact Rc|].
  destruct (first_choice (role_columns cat "orders") ORDER_ID_CANDIDATES)
    as [o|]; [|apply traces_bind_raise; exact Ro].
  eapply (traces_bind _ _ _ _ _ [] []); [exact Ro|].
  rewrite !find_if_cols_eq.
  rewrite (truthy_find_first_in _ _ Hprod).
  destruct (find_first_in (role_columns cat "order_items") PRODUCT_ID_CANDIDATES);
    apply traces_ret.
Qed.

Lemma traces_build_query (cat : list table) :
  traces build_query cat
         (match bindings_of cat with
          | Returns b => Returns (render b)
          | Raises e => Raises e
          end)
         (statements_of cat).
Proof.
  unfold build_query. pose proof (traces_resolve cat) as R.
  destruct (bindings_of cat) as [b|e].
  - rewrite <- (app_nil_r (statements_of cat)).
    eapply traces_bind; [exact R | apply traces_ret].
  - apply traces_bind_raise. exact R.
Qed.

Lemma optional_read_is_read (cat : list table) (name : string) :
  Forall (catalog_read cat) (optional_read cat name)
  /\ length (optional_read cat name) <= 1.
Proof.
  unfold optional_read.
  destruct (find_table (map fst cat) name) as [t|] eqn:E; simpl.
  - split; [|auto]. constructor; [|constructor].
    right. exists t. apply find_table_some in E. tauto.
  - split; [constructor | auto].
Qed.

Lemma mandatory_read_is_read (cat : list table) (name : string) :
  has_table cat name = true ->
  catalog_read cat (table_info_stmt (py_str (find_table (map fst cat) name))).
Proof.
  intros H. right. unfold has_table in H.
  destruct (find_table (map fst cat) name) as [t|] eqn:E.
  - exists t. apply find_table_some in E. simpl. tauto.
  - apply find_table_py_in in E. congruence.
Qed.

(** X3.  Whether it returns a query or raises, [build_query] leaves the
    connection with the same catalog and with its history extended by the
    statements it sent: the listing of the tables, then, if both mandatory
    tables are there, [PRAGMA table_info] for orders, for customers and for
    each of products, order_items and reviews that exists.  It sends at most
    six statements, each a read of the catalog about a table that is in it,
    and only the listing when a mandatory table is missing. *)
Theorem build_query_only_reads_the_catalog :
  forall conn : connection,
    after build_query conn
    = mkConnection (catalog conn)
        (executed conn ++ statements_of (catalog conn))%list
    /\ Forall (catalog_read (catalog conn)) (statements_of (catalog conn))
    /\ 1 <= length (statements_of (catalog conn)) <= 6
    /\ (insufficient (catalog conn) ->
        statements_of (catalog conn) = [list_tables_stmt]).
Proof.
  intros conn. split.
  { unfold after. now rewrite (traces_build_query (catalog conn) conn eq_refl). }
  unfold statements_of. rewrite insufficient_has_table.
  assert (Short : Forall (catalog_read (catalog conn)) [list_tables_stmt]
                  /\ 1 <= length [list_tables_stmt] <= 6
                  /\ (false = false -> [list_tables_stmt] = [list_tables_stmt])).
  { split; [constructor; [now left | constructor]|].
    split; [simpl; split; [apply le_n | repeat constructor] | reflexivity]. }
  destruct (has_table (catalog conn) "customers") eqn:Hc;
    destruct (has_table (catalog conn) "orders") eqn:Ho; cbn [andb];
    try exact Short.
  destruct (optional_read_is_read (catalog conn) "products") as [F1 L1].
  destruct (optional_read_is_read (catalog conn) "order_items") as [F2 L2].
  destruct (optional_read_is_read (catalog conn) "reviews") as [F3 L3].
  split; [|split].
  - constructor; [now left|].
    constructor; [now apply mandatory_read_is_read|].
    constructor; [now apply mandatory_read_is_read|].
    apply Forall_app. split; [exact F1|]. apply Forall_app. split; assumption.
  - cbn [length]. rewrite !length_app.
    split; [apply le_n_S, Nat.le_0_l|].
    do 3 apply le_n_S.
    apply (Nat.le_trans _ (1 + (1 + 1))); [|auto].
    apply Nat.add_le_mono; [exact L1|]. apply Nat.add_le_mono; assumption.
  - discriminate.
Qed.

(** ** The table names a query is rendered with *)

Lemma select_tier_full_inv (b : bindings) :
  select_tier b = Full ->
  truthy (t_order_items b) = true /\ truthy (product_name_col b) = true.
Proof.
  unfold select_tier.
  destruct (truthy (t_order_items b)), (truthy (product_name_col b));
    cbn [andb]; try tauto;
    destruct (truthy (product_id_col b) && truthy (t_products b) && _);
    discriminate.
Qed.

Lemma select_tier_degraded_inv (b : bindings) :
  select_tier b = Degraded ->
  truthy (product_id_col b) = true /\ truthy (t_products b) = true
  /\ truthy (product_name_col b) = true.
Proof.
  unfold select_tier.
  destruct (truthy (t_order_items b) && truthy (product_name_col b));
    [discriminate|].
  destruct (truthy (product_id_col b)), (truthy (t_products b)),
    (truthy (product_name_col b)); cbn [andb]; try tauto; discriminate.
Qed.

Lemma truthy_some (x : option string) :
  truthy x = true -> exists s, x = Some s.
Proof. destruct x as [s|]; [exists s; reflexivity | discriminate]. Qed.





(** ** Algebra of the candidate resolver *)

Lemma py_in_same_members (x : string) (cols cols2 : list string) :
  (forall c, In c cols <-> In c cols2) -> py_in x cols = py_in x cols2.
Proof.
  intros H. destruct (py_in x cols) eqn:E.
  - symmetry. apply py_in_In, H, py_in_In, E.
  - symmetry. apply py_in_false. intros Hin. apply H in Hin.
    apply py_in_In in Hin. congruence.
Qed.

(** X5.  The resolver looks at the columns only through membership: two
    column lists with the same members (in any order, with any repetition)
    resolve every candidate list alike.  A candidate list extended at its
    end keeps every earlier answer, the added candidates being tried only
    when none of the earlier ones is present.  Whatever is returned is both
    a candidate and a column. *)
Theorem find_first_in_algebra :
  forall cols candidates : list string,
    (forall cols2, (forall c, In c cols <-> In c cols2) ->
                   find_first_in cols2 candidates = find_first_in cols candidates)
    /\ (forall more,
           find_first_in cols (candidates ++ more)%list
           = match find_first_in cols candidates with
             | Some c => Some c
             | None => find_first_in cols more
             end)
    /\ (forall c, find_first_in cols candidates = Some c ->
                  In c candidates /\ In c cols).
Proof.
  intros cols cands. split; [|split].
  - intros cols2 H. induction cands as [|x cands IH]; simpl; [reflexivity|].
    rewrite (py_in_same_members x cols cols2 H), IH. reflexivity.
  - intros more. induction cands as [|x cands IH]; simpl; [reflexivity|].
    destruct (py_in x cols); [reflexivity | exact IH].
  - intros c. apply find_first_in_some_In.
Qed.

(** ** The whole text of the Full and Degraded queries *)

Lemma nonblank_candidates_more :
  ~ In "" QUANTITY_CANDIDATES /\ ~ In "" SUBTOTAL_CANDIDATES
  /\ ~ In "" REVIEW_RATING_CANDIDATES.
Proof.
  repeat split; simpl; intros H;
    repeat (destruct H as [H|H]; [discriminate H|]); exact H.
Qed.

Lemma rating_expr_projection (b : bindings) (cols : list string) :
  rating_col b = find_first_in cols REVIEW_RATING_CANDIDATES ->
  rating_expr b = rating_projection (rating_col b).
Proof.
  destruct nonblank_candidates_more as (_ & _ & Hr).
  intros E. unfold rating_expr. rewrite E.
  rewrite (truthy_find_first_in _ _ Hr).
  now destruct (find_first_in cols REVIEW_RATING_CANDIDATES).
Qed.

(** X6.  The complete text of the richer queries, in terms of the catalog.
    A Full-tier query projects the quantity and subtotal columns resolved
    among the order_items columns, or else the literal names [quantity] and
    [subtotal]; a Degraded-tier query projects the constant 1 as quantity
    and the resolved order-total column of orders, or else the literal
    [total_amount], as subtotal.  Both project the rating column of reviews
    under its own name, without the alias [rating], or a null column when
    there is none, and both continue with the join lines and the row cap. *)
Theorem full_and_degraded_query_text :
  forall (conn : connection) (b : bindings),
    result_of resolve conn = Returns b ->
    (select_tier b = Full ->
     exists pn,
       resolve_spec (role_columns (catalog conn) "products")
         PRODUCT_NAME_CANDIDATES = Some pn
       /\ result_of build_query conn =
          Returns
            (full_select (cust_id_col b) pn (order_id_col b)
               (or_default (resolve_spec (role_columns (catalog conn) "order_items")
                              QUANTITY_CANDIDATES) "quantity")
               (or_default (resolve_spec (role_columns (catalog conn) "order_items")
                              SUBTOTAL_CANDIDATES) "subtotal")
               (resolve_spec (role_columns (catalog conn) "reviews")
                  REVIEW_RATING_CANDIDATES)
             ++ full_joins (py_str (t_customers b)) (py_str (t_orders b))
                  (py_str (t_order_items b)) (py_str (t_products b))
                  (py_str (t_reviews b)) (cust_id_col b) (order_id_col b)
                  (or_default (product_id_role (catalog conn)) "product_id")))
    /\ (select_tier b = Degraded ->
        exists pn pid,
          resolve_spec (role_columns (catalog conn) "products")
            PRODUCT_NAME_CANDIDATES = Some pn
          /\ resolve_spec (role_columns (catalog conn) "orders")
               PRODUCT_ID_CANDIDATES = Some pid
          /\ result_of build_query conn =
             Returns
               (degraded_select (cust_id_col b) pn (order_id_col b)
                  (or_default (resolve_spec (role_columns (catalog conn) "orders")
                                 ORDER_TOTAL_CANDIDATES) "total_amount")
                  (resolve_spec (role_columns (catalog conn) "reviews")
                     REVIEW_RATING_CANDIDATES)
                ++ degraded_joins (py_str (t_customers b)) (py_str (t_orders b))
                     (py_str (t_products b)) (py_str (t_reviews b))
                     (cust_id_col b) pid)).
Proof.
  intros conn b Hb.
  pose proof (resolve_product_id conn b Hb) as Hpid.
  destruct (resolve_fields conn b Hb)
    as (_ & _ & _ & Htoi & _ & _ & _ & Hpn & Hq & Hs & Ht & Hr & _).
  destruct nonblank_candidates_more as (Nq & Ns & _).
  assert (Hq' : result_of build_query conn = Returns (render b))
    by (rewrite build_query_result, Hb; reflexivity).
  rewrite <- !resolve_spec_eq. split; intros Htier.
  - destruct (select_tier_full_inv b Htier) as [_ Tpn].
    destruct (truthy_some _ Tpn) as [pn Epn]. exists pn.
    split; [now rewrite <- Hpn|].
    rewrite Hq'. unfold render. rewrite Htier. unfold full_sql.
    rewrite (rating_expr_projection b _ Hr).
    rewrite Hpid, (py_or_nonblank _ _ (product_id_role_nonblank (catalog conn))).
    rewrite Hq, Hs, Hr, Epn.
    rewrite !py_or_find_first_in by assumption.
    unfold full_select, full_joins, limit_clause. cbn [py_str].
    rewrite !string_app_assoc. reflexivity.
  - destruct (select_tier_degraded_inv b Htier) as (Tpid & _ & Tpn).
    destruct (truthy_some _ Tpn) as [pn Epn].
    destruct (truthy_some _ Tpid) as [pid Epid].
    assert (Hno : ~ present (catalog conn) "order_items").
    { intros Hp. apply (truthy_table_present conn "order_items") in Hp;
        [|discriminate].
      rewrite <- Htoi in Hp. unfold select_tier in Htier.
      rewrite Hp, Tpn in Htier. discriminate Htier. }
    exists pn, pid. split; [now rewrite <- Hpn|]. split.
    { rewrite Hpid in Epid. unfold product_id_role in Epid.
      rewrite (role_columns_absent _ _ Hno) in Epid.
      rewrite <- !resolve_spec_eq in Epid.
      now rewrite find_first_in_nil in Epid. }
    rewrite Hq'. unfold render. rewrite Htier. unfold degraded_sql.
    rewrite (rating_expr_projection b _ Hr).
    rewrite Epid, Epn, Hr.
    assert (Et : (if truthy (order_total_col b)
                  then "o." ++ py_str (order_total_col b) else "o.total_amount")
                 = "o." ++ or_default (find_first_in
                                         (role_columns (catalog conn) "orders")
                                         ORDER_TOTAL_CANDIDATES) "total_amount").
    { rewrite Ht, (truthy_find_first_in _ _ order_total_nonblank).
      now destruct (find_first_in _ ORDER_TOTAL_CANDIDATES). }
    cbv zeta. rewrite Et.
    unfold degraded_select, degraded_joins, limit_clause. cbn [py_str].
    rewrite !string_app_assoc. reflexivity.
Qed.

Lemma full_query_text_witness :
  result_of build_query (connect Samples.products_keyed_by_id) =
  Returns
    (full_select "customer_id" "name" "order_id" "qty" "line_total" (Some "stars")
     ++ full_joins "Customers" "Orders" "Order_Items" "Products" "Reviews"
          "customer_id" "order_id" "product_id").
Proof.
  destruct (full_and_degraded_query_text
              (connect Samples.products_keyed_by_id)
              (mkBindings (Some "Customers") (Some "Orders") (Some "Products")
                 (Some "Order_Items") (Some "Reviews") "customer_id" "order_id"
                 (Some "product_id") (Some "name") (Some "qty") (Some "line_total")
                 None (Some "stars"))
              eq_refl) as [HF _].
  destruct (HF eq_refl) as (pn & Epn & Hq).
  injection Epn as <-. exact Hq.
Defined.

(** * Properties of [print_rows] *)

Section PrintRowsFacts.

Context {value : Type} (str : value -> string).

Local Abbreviation cell_len v := (String.length (cell_text str v)).

(** ** Assignment into the list of widths *)

Lemma set_index_length (i x : nat) (ws : list nat) :
  List.length (set_index i x ws) = List.length ws.
Proof.
  revert i; induction ws as [|w ws IH]; intros [|i]; simpl; auto.
Qed.

Lemma set_index_same (i x w : nat) (ws : list nat) :
  nth_error ws i = Some w -> nth_error (set_index i x ws) i = Some x.
Proof.
  revert i; induction ws as [|w0 ws IH]; intros [|i]; simpl; try discriminate; auto.
Qed.

Lemma set_index_other (i j x : nat) (ws : list nat) :
  i <> j -> nth_error (set_index i x ws) j = nth_error ws j.
Proof.
  revert i j; induction ws as [|w ws IH]; intros [|i] [|j] H; simpl; auto.
  now elim H.
Qed.

(** ** The inner loop *)

Lemma widen_cells_raises (r : list (option value)) :
  forall (i : nat) (ws : list nat),
    i <= List.length ws ->
    (widen_cells str i r ws = Raises IndexError <-> List.length ws < i + List.length r)
    /\ (forall e, widen_cells str i r ws = Raises e -> e = IndexError).
Proof.
  induction r as [|v r IH]; intros i ws Hi; simpl.
  - split; [|discriminate]. split; [discriminate|]. rewrite Nat.add_0_r.
    intros H. exfalso. apply (Nat.lt_irrefl i). eapply Nat.le_lt_trans; eauto.
  - destruct (nth_error ws i) as [w|] eqn:E.
    + assert (Hlt : i < List.length ws)
        by (apply nth_error_Some; rewrite E; discriminate).
      destruct (IH (S i) (set_index i (Nat.max w (cell_len v)) ws)) as [H1 H2].
      { rewrite set_index_length. exact Hlt. }
      rewrite set_index_length in H1. split; [|exact H2].
      rewrite H1. rewrite <- Nat.add_succ_comm. reflexivity.
    + apply nth_error_None in E. split; [|now intros e [= <-]].
      split; [intros _ | reflexivity].
      eapply Nat.le_lt_trans; [exact E|].
      rewrite <- Nat.add_succ_comm. apply Nat.lt_lt_add_r, Nat.lt_succ_diag_r.
Qed.

(** What a successful pass over one row leaves in the list of widths. *)
Lemma widen_cells_returns (r : list (option value)) :
  forall (i : nat) (ws ws' : list nat),
    widen_cells str i r ws = Returns ws' ->
    List.length ws' = List.length ws
    /\ (forall j w, nth_error ws j = Some w ->
                    exists w', nth_error ws' j = Some w' /\ w <= w')
    /\ (forall k v, nth_error r k = Some v ->
                    exists w', nth_error ws' (i + k) = Some w' /\ cell_len v <= w')
    /\ (forall j w', nth_error ws' j = Some w' ->
                     nth_error ws j = Some w'
                     \/ exists k v, j = i + k /\ nth_error r k = Some v
                                    /\ w' = cell_len v).
Proof.
  induction r as [|v r IH]; intros i ws ws' H; simpl in H.
  - injection H as <-. repeat split.
    + intros j w E. exists w. split; [exact E | apply le_n].
    + intros [|k] v' E; discriminate E.
    + intros j w' E. now left.
  - destruct (nth_error ws i) as [w|] eqn:E; [|discriminate H].
    destruct (IH _ _ _ H) as (L & Mono & Cover & Tight).
    rewrite set_index_length in L. split; [exact L|]. split; [|split].
    + intros j w0 E0. destruct (Nat.eq_dec i j) as [<-|Hne].
      * destruct (Mono i _ (set_index_same _ _ _ _ E)) as (w' & E' & Hle).
        exists w'. split; [exact E'|]. rewrite E in E0. injection E0 as <-.
        eapply Nat.le_trans; [apply Nat.le_max_l | exact Hle].
      * apply Mono. now rewrite set_index_other.
    + intros [|k] v' Ev; simpl in Ev.
      * injection Ev as <-. rewrite Nat.add_0_r.
        destruct (Mono i _ (set_index_same _ _ _ _ E)) as (w' & E' & Hle).
        exists w'. split; [exact E'|].
        eapply Nat.le_trans; [apply Nat.le_max_r | exact Hle].
      * rewrite <- Nat.add_succ_comm. now apply Cover.
    + intros j w' E'. destruct (Tight j w' E') as [Hold | (k & v' & -> & Ev & ->)].
      * destruct (Nat.eq_dec i j) as [<-|Hne].
        -- rewrite (set_index_same _ _ _ _ E) in Hold. injection Hold as <-.
           destruct (Nat.max_spec w (cell_len v)) as [[_ ->] | [_ ->]].
           ++ right. exists 0, v. rewrite Nat.add_0_r. auto.
           ++ now left.
        -- left. now rewrite set_index_other in Hold.
      * right. exists (S k), v'. rewrite Nat.add_succ_comm. auto.
Qed.

(** ** The outer loop *)

Lemma widen_rows_raises (rows : list (list (option value))) :
  forall ws : list nat,
    (widen_rows str rows ws = Raises IndexError <->
     exists r, In r rows /\ List.length ws < List.length r)
    /\ (forall e, widen_rows str rows ws = Raises e -> e = IndexError).
Proof.
  induction rows as [|r rows IH]; intros ws; simpl.
  - split; [|discriminate]. split; [discriminate | intros (r & [] & _)].
  - destruct (widen_cells_raises r 0 ws (Nat.le_0_l _)) as [R1 R2].
    destruct (widen_cells str 0 r ws) as [ws'|e] eqn:E.
    + destruct (widen_cells_returns r 0 ws ws' E) as (L & _).
      destruct (IH ws') as [H1 H2]. split; [|exact H2].
      rewrite H1, L. split.
      * intros (r' & Hin & Hlt). exists r'. split; [now right | exact Hlt].
      * intros (r' & [<-|Hin] & Hlt).
        -- exfalso. assert (X : Returns ws' = Raises IndexError)
             by (apply R1; exact Hlt). discriminate X.
        -- exists r'. split; assumption.
    + pose proof (R2 e eq_refl) as ->. split; [|now intros e [= <-]].
      split; [intros _ | reflexivity].
      exists r. split; [now left | now apply R1].
Qed.

Lemma widen_rows_returns (rows : list (list (option value))) :
  forall ws ws' : list nat,
    widen_rows str rows ws = Returns ws' ->
    List.length ws' = List.length ws
    /\ (forall j w, nth_error ws j = Some w ->
                    exists w', nth_error ws' j = Some w' /\ w <= w')
    /\ (forall r k v, In r rows -> nth_error r k = Some v ->
                      exists w', nth_error ws' k = Some w' /\ cell_len v <= w')
    /\ (forall j w', nth_error ws' j = Some w' ->
                     nth_error ws j = Some w'
                     \/ exists r v, In r rows /\ nth_error r j = Some v
                                    /\ w' = cell_len v).
Proof.
  induction rows as [|r rows IH]; intros ws ws' H; simpl in H.
  - injection H as <-. repeat split.
    + intros j w E. exists w. split; [exact E | apply le_n].
    + intros r k v [].
    + intros j w' E. now left.
  - destruct (widen_cells str 0 r ws) as [ws1|e] eqn:E; [|discriminate H].
    destruct (widen_cells_returns r 0 ws ws1 E) as (L1 & M1 & C1 & T1).
    destruct (IH ws1 ws' H) as (L & M & C & T).
    split; [congruence|]. split; [|split].
    + intros j w Ej. destruct (M1 j w Ej) as (w1 & E1 & Hle1).
      destruct (M j w1 E1) as (w' & E' & Hle). exists w'.
      split; [exact E' | eapply Nat.le_trans; eauto].
    + intros r' k v [<-|Hin] Ev.
      * destruct (C1 k v Ev) as (w1 & E1 & Hle1). simpl in E1.
        destruct (M k w1 E1) as (w' & E' & Hle). exists w'.
        split; [exact E' | eapply Nat.le_trans; eauto].
      * now apply (C r' k v).
    + intros j w' E'. destruct (T j w' E') as [Hold | (r' & v & Hin & Ev & ->)].
      * destruct (T1 j w' Hold) as [Hold1 | (k & v & -> & Ev & ->)].
        -- now left.
        -- right. exists r, v. simpl. auto.
      * right. exists r', v. simpl. auto.
Qed.

(** ** Lengths of the printed lines *)










(** ** What [print_rows] prints *)

(** X7.  [print_rows] raises [IndexError] exactly when some row has more
    cells than there are headers, and raises nothing else; the exception
    comes from the first loop, before anything is printed.  When no row is
    longer than the header list (shorter rows are accepted) it prints the
    header line, the separator, one line per row and the count line. *)
Theorem print_rows_raises_iff_long_row :
  forall (headers : list string) (rows : list (list (option value))),
    (print_rows str headers rows = Raises IndexError <->
     exists r, In r rows /\ List.length headers < List.length r)
    /\ (forall e, print_rows str headers rows = Raises e -> e = IndexError)
    /\ ((forall r, In r rows -> List.length r <= List.length headers) <->
        exists lines, print_rows str headers rows = Returns lines
                      /\ List.length lines = List.length rows + 3).
Proof.
  intros headers rows. unfold print_rows.
  destruct (widen_rows_raises rows (map String.length headers)) as [R1 R2].
  rewrite length_map in R1.
  destruct (widen_rows str rows (map String.length headers)) as [ws|e] eqn:E.
  - split; [|split].
    + split; [discriminate|]. intros H. apply R1 in H. discriminate H.
    + discriminate.
    + split.
      * intros _. eexists. split; [reflexivity|].
        cbn [List.length]. rewrite length_app, length_map. simpl. lia.
      * intros _ r Hin. apply Nat.nlt_ge. intros Hlt.
        assert (X : Returns ws = Raises IndexError)
          by (apply R1; exists r; split; assumption).
        discriminate X.
  - pose proof (R2 e eq_refl) as ->. split; [|split].
    + split; [intros _; now apply R1 | reflexivity].
    + now intros e [= <-].
    + split; [|intros (lines & H & _); discriminate H].
      intros H. exfalso. destruct R1 as [R1 _].
      destruct (R1 eq_refl) as (r & Hin & Hlt).
      apply (Nat.lt_irrefl (List.length headers)).
      eapply Nat.lt_le_trans; [exact Hlt | now apply H].
Qed.

(** X8.  When [print_rows] succeeds, the lines are laid out on one width
    per header, and each width is exactly the length of the longest text of
    its column, header included: it is at least the length of the header
    and of every cell of the column, and it is the length of the header or
    of one of those cells. *)
Theorem print_rows_column_widths :
  forall (headers : list string) (rows : list (list (option value)))
         (lines : list string),
    print_rows str headers rows = Returns lines ->
    exists widths,
      lines = header_line headers widths
              :: sep_line headers widths
              :: (map (row_line str widths) rows ++ [count_line rows])%list
      /\ List.length widths = List.length headers
      /\ (forall j h, nth_error headers j = Some h ->
                      exists w, nth_error widths j = Some w /\ String.length h <= w)
      /\ (forall r j v, In r rows -> nth_error r j = Some v ->
                        exists w, nth_error widths j = Some w /\ cell_len v <= w)
      /\ (forall j w, nth_error widths j = Some w ->
                      (exists h, nth_error headers j = Some h /\ w = String.length h)
                      \/ (exists r v, In r rows /\ nth_error r j = Some v
                                      /\ w = cell_len v)).
Proof.
  intros headers rows lines H. unfold print_rows in H.
  destruct (widen_rows str rows (map String.length headers)) as [ws|e] eqn:E;
    [|discriminate H].
  injection H as <-. exists ws.
  destruct (widen_rows_returns rows _ _ E) as (L & M & C & T).
  rewrite length_map in L.
  split; [reflexivity|]. split; [exact L|]. split; [|split].
  - intros j h Eh. apply (M j). rewrite nth_error_map, Eh. reflexivity.
  - intros r j v Hin Ev. now apply (C r j v).
  - intros j w Ew. destruct (T j w Ew) as [Hold | Hcell]; [left | now right].
    rewrite nth_error_map in Hold.
    destruct (nth_error headers j) as [h|]; [|discriminate Hold].
    exists h. split; [reflexivity|]. simpl in Hold. now injection Hold as <-.
Qed.


End PrintRowsFacts.

Lemma print_rows_column_widths_witness :
  exists widths,
    print_rows (fun s : string => s) ["id"; "customer"]
      [[Some "1"; Some "Ann"]; [Some "22"; None]]
    = Returns (header_line ["id"; "customer"] widths
               :: sep_line ["id"; "customer"] widths
               :: (map (row_line (fun s : string => s) widths)
                     [[Some "1"; Some "Ann"]; [Some "22"; None]]
                   ++ [count_line [[Some "1"; Some "Ann"]; [Some "22"; None]]])%list)
    /\ List.length widths = 2.
Proof.
  destruct (print_rows_column_widths (fun s : string => s) ["id"; "customer"]
              [[Some "1"; Some "Ann"]; [Some "22"; None]] _ eq_refl)
    as (widths & Hl & Hn & _).
  exists widths. split; [|exact Hn]. now rewrite <- Hl.
Defined.


(** * Properties of [main] *)

Section MainFacts.

Context {value : Type} (str : value -> string).
Context {row : Type} (row_item : row -> string -> option value).
Context (DB_PATH : string).

Local Abbreviation run st := (main str row_item DB_PATH st).

Lemma query_of_result (conn : connection) :
  result_of build_query conn = query_of (catalog conn).
Proof. rewrite build_query_result, resolve_result. reflexivity. Qed.

(** The tuples handed to [print_rows] fit the headers. *)
Lemma rows_as_tuples_fit (headers : list string) (rows : list row) :
  forall r, In r (rows_as_tuples row_item headers rows) ->
            List.length r = List.length headers.
Proof.
  intros r H. apply in_map_iff in H. destruct H as (x & <- & _).
  apply length_map.
Qed.

Lemma print_rows_of_tuples (headers : list string) (rows : list row) :
  exists ws,
    widen_rows str (rows_as_tuples row_item headers rows) (map String.length headers)
    = Returns ws.
Proof.
  destruct (widen_rows_raises str (rows_as_tuples row_item headers rows)
              (map String.length headers)) as [R1 R2].
  destruct (widen_rows str _ _) as [ws|e] eqn:E; [now exists ws|].
  exfalso. pose proof (R2 e eq_refl) as ->.
  destruct R1 as [R1 _]. destruct (R1 eq_refl) as (r & Hin & Hlt).
  rewrite length_map in Hlt. rewrite (rows_as_tuples_fit _ _ r Hin) in Hlt.
  now apply Nat.lt_irrefl in Hlt.
Qed.

(** ** Calls on the engine *)

Lemma skipn_length_app {A : Type} (l s : list A) :
  skipn (List.length l) (l ++ s)%list = s.
Proof. induction l as [|x l IH]; simpl; [reflexivity | exact IH]. Qed.

(** A call whose statements are known stops at the first of them the
    engine refuses, and otherwise ends as over the catalog. *)
Lemma on_engine_traces {A : Type} (st : store row) (m : M A) (cat : list table)
      (v : outcome A) (stmts : list string) (conn : connection) :
  traces m cat v stmts -> catalog conn = cat ->
  on_engine st m conn =
  match first_refused (read_error st) (executed conn) stmts with
  | Some (history, err) => (inl (Sqlite err), mkConnection cat history)
  | None =>
      (match v with
       | Returns a => inr a
       | Raises e => inl (Py e)
       end, mkConnection cat (executed conn ++ stmts)%list)
  end.
Proof.
  intros T Hc. unfold on_engine. rewrite (T conn Hc). cbn [executed].
  rewrite skipn_length_app, Hc. reflexivity.
Qed.

Lemma refused_read_eq (st : store row) :
  refused_read st =
  match read_error st [] list_tables_stmt with
  | Some err => Some ([list_tables_stmt], err)
  | None =>
      first_refused (read_error st) [list_tables_stmt]
        (statements_of (store_catalog st))
  end.
Proof. reflexivity. Qed.

(** The [try] block on a connection just opened. *)
Lemma main_body_eq (st : store row) :
  main_body str row_item st (connect (store_catalog st)) =
  let cat := store_catalog st in
  let p1 := tables_line cat in
  match read_error st [] list_tables_stmt with
  | Some err => ([], Some (Sqlite err), mkConnection cat [list_tables_stmt])
  | None =>
      match first_refused (read_error st) [list_tables_stmt] (statements_of cat) with
      | Some (history, err) => ([p1], Some (Sqlite err), mkConnection cat history)
      | None =>
          match query_of cat with
          | Raises e =>
              ([p1], Some (Py e),
               mkConnection cat (list_tables_stmt :: statements_of cat))
          | Returns sql =>
              let conn3 :=
                mkConnection cat
                  (list_tables_stmt :: statements_of cat ++ [sql])%list in
              match run_query st sql with
              | inl err => ([p1; echo sql], Some (Sqlite err), conn3)
              | inr (headers, rows) =>
                  match rows with
                  | [] => ([p1; echo sql; "Query returned 0 rows."], None, conn3)
                  | _ :: _ =>
                      match print_rows str headers
                              (rows_as_tuples row_item headers rows) with
                      | Returns lines =>
                          ((p1 :: echo sql :: lines)%list, None, conn3)
                      | Raises e => ([p1; echo sql], Some (Py e), conn3)
                      end
                  end
              end
          end
      end
  end.
Proof.
  unfold main_body, query_of, tables_line. cbv zeta.
  rewrite (on_engine_traces st get_tables (store_catalog st) _ _
             (connect (store_catalog st))
             (traces_get_tables (store_catalog st)) eq_refl).
  cbn [executed connect app first_refused].
  destruct (read_error st [] list_tables_stmt) as [err|]; [reflexivity|].
  rewrite (on_engine_traces st build_query (store_catalog st) _ _
             (mkConnection (store_catalog st) [list_tables_stmt])
             (traces_build_query (store_catalog st)) eq_refl).
  cbn [executed app].
  destruct (first_refused (read_error st) [list_tables_stmt]
              (statements_of (store_catalog st))) as [[history err]|];
    [reflexivity|].
  destruct (bindings_of (store_catalog st)) as [b|e]; [|reflexivity].
  unfold record_statement. cbn [catalog executed app].
  reflexivity.
Qed.

Lemma print_rows_of_tuples_returns (headers : list string) (rows : list row) :
  exists lines,
    print_rows str headers (rows_as_tuples row_item headers rows) = Returns lines
    /\ List.length lines = List.length rows + 3.
Proof.
  unfold print_rows. destruct (print_rows_of_tuples headers rows) as [ws ->].
  eexists. split; [reflexivity|].
  cbn [List.length]. rewrite length_app, length_map. unfold rows_as_tuples.
  rewrite length_map. simpl. lia.
Qed.

(** ** How [main] ends *)

Lemma main_opened (st : store row) :
  opened (run st)
  = file_exists st && match connect_error st with None => true | Some _ => false end.
Proof.
  unfold main. destruct (file_exists st); [|reflexivity].
  destruct (connect_error st); [reflexivity|]. cbn [negb andb].
  destruct (main_body str row_item st _) as [[out [[[msg|]|err]|]] conn];
    try destruct (operational err); reflexivity.
Qed.

Lemma main_closed (st : store row) : closed (run st) = opened (run st).
Proof.
  unfold main. destruct (file_exists st); [|reflexivity].
  destruct (connect_error st); [reflexivity|]. cbn [negb].
  destruct (main_body str row_item st _) as [[out [[[msg|]|err]|]] conn];
    try destruct (operational err); reflexivity.
Qed.

(** The ending of [main] from what the store holds. *)
Lemma main_ended (st : store row) :
  ended (run st) =
  if negb (file_exists st) then Exits 1
  else
    match connect_error st with
    | Some err => Propagates (Sqlite err)
    | None =>
        match refused_read st with
        | Some (_, err) =>
            if operational err then ReturnsNormally else Propagates (Sqlite err)
        | None =>
            match query_of (store_catalog st) with
            | Raises (RuntimeError _) => ReturnsNormally
            | Raises IndexError => Propagates (Py IndexError)
            | Returns sql =>
                match run_query st sql with
                | inl err =>
                    if operational err then ReturnsNormally
                    else Propagates (Sqlite err)
                | inr _ => ReturnsNormally
                end
            end
        end
    end.
Proof.
  unfold main. destruct (file_exists st); [|reflexivity]. cbn [negb].
  destruct (connect_error st); [reflexivity|].
  rewrite main_body_eq, refused_read_eq. cbv zeta.
  destruct (read_error st [] list_tables_stmt) as [err|].
  { destruct (operational err); reflexivity. }
  destruct (first_refused _ _ _) as [[history err]|].
  { destruct (operational err); reflexivity. }
  destruct (query_of (store_catalog st)) as [sql|[msg|]]; [|reflexivity ..].
  destruct (run_query st sql) as [err | [headers [|r rows]]].
  - destruct (operational err); reflexivity.
  - reflexivity.
  - destruct (print_rows_of_tuples_returns headers (r :: rows)) as (lines & -> & _).
    reflexivity.
Qed.

Lemma escapes_one (x : raised) (P : raised -> Prop) :
  (forall e, P e -> e = x) -> P x ->
  forall e, Propagates x = Propagates e <-> true = true /\ P e.
Proof.
  intros Huniq Hx e. split.
  - intros [= <-]. now split.
  - intros [_ H]. apply Huniq in H. now subst e.
Qed.

Lemma escapes_none (w : ending) (P : raised -> Prop) :
  (forall e, ~ P e) -> (forall e, w <> Propagates e) ->
  forall e, w = Propagates e <-> true = true /\ P e.
Proof.
  intros HP Hw e. split; [intros H; now apply Hw in H|].
  intros [_ H]. now apply HP in H.
Qed.

Ltac settle :=
  first
    [ tauto | discriminate | reflexivity
    | intros ? [= <-]; reflexivity
    | split; intros; repeat split; reflexivity
    | split;
      [ discriminate
      | let H := fresh in
        let H1 := fresh in
        let H2 := fresh in
        intros H;
        first [ discriminate H
              | destruct H as [H1 H2]; first [discriminate H1 | discriminate H2] ] ] ].

Ltac five := split; [|split; [|split; [|split]]]; cbn [andb]; try settle.

(** X10.  [main] exits with status 1 exactly when the database file is
    missing.  It holds a connection exactly when the file exists and
    [sqlite3.connect] did not raise, and closes every connection it
    opened.  An exception escapes [main] in four cases and no other: the
    error of [sqlite3.connect], raised before the [try] block; the error of
    the first catalog read the engine refuses, when it is not an
    [OperationalError]; the [IndexError] of [build_query]; and the error
    the engine answers the query with, when it is not an
    [OperationalError].  So neither a [RuntimeError] nor an
    [OperationalError] raised once connected escapes, and [print_rows], fed
    with one item per header, raises nothing. *)
Theorem main_endings :
  forall st : store row,
    (ended (run st) = Exits 1 <-> file_exists st = false)
    /\ (forall n, ended (run st) = Exits n -> n = 1)
    /\ (opened (run st) = true <->
        file_exists st = true /\ connect_error st = None)
    /\ closed (run st) = opened (run st)
    /\ (forall e, ended (run st) = Propagates e <->
          file_exists st = true
          /\ ((exists err, connect_error st = Some err /\ e = Sqlite err)
              \/ (connect_error st = None
                  /\ exists history err,
                       refused_read st = Some (history, err)
                       /\ operational err = false /\ e = Sqlite err)
              \/ (connect_error st = None /\ refused_read st = None
                  /\ result_of build_query (connect (store_catalog st))
                     = Raises IndexError
                  /\ e = Py IndexError)
              \/ (connect_error st = None /\ refused_read st = None
                  /\ exists sql err,
                       result_of build_query (connect (store_catalog st))
                       = Returns sql
                       /\ run_query st sql = inl err
                       /\ operational err = false /\ e = Sqlite err))).
Proof.
  intros st.
  rewrite main_closed, main_opened, main_ended.
  rewrite (query_of_result (connect (store_catalog st))). cbn [catalog connect].
  destruct (file_exists st); cbn [negb andb].
  2:{ five. }
  destruct (connect_error st) as [cerr|].
  { five.
    apply escapes_one; [|left; now exists cerr].
      intros e [(err & [= <-] & ->) | [(H & _) | [(H & _) | (H & _)]]];
        [reflexivity | discriminate H ..]. }
  destruct (refused_read st) as [[history err]|].
  { destruct (operational err) eqn:Op; five.
    - apply escapes_none; [|discriminate].
      intros e [(x & H & _) | [(_ & h & x & [= _ <-] & H & _)
                              | [(_ & H & _) | (_ & H & _)]]]; congruence.
    - apply escapes_one.
      + intros e [(x & H & _) | [(_ & h & x & [= _ <-] & _ & ->)
                                | [(_ & H & _) | (_ & H & _)]]];
          [discriminate H | reflexivity | discriminate H ..].
      + right. left. split; [reflexivity|]. now exists history, err. }
  destruct (query_of (store_catalog st)) as [sql|[msg|]].
  - destruct (run_query st sql) as [err | [headers rows]] eqn:Eq.
    + destruct (operational err) eqn:Op; five.
      * apply escapes_none; [|discriminate].
        intros e [(x & H & _) | [(_ & h & x & H & _)
                                | [(_ & _ & H & _)
                                  | (_ & _ & q & x & [= <-] & H1 & H2 & _)]]];
          congruence.
      * apply escapes_one.
        -- intros e [(x & H & _) | [(_ & h & x & H & _)
                                   | [(_ & _ & H & _)
                                     | (_ & _ & q & x & [= <-] & H1 & _ & ->)]]];
             congruence.
        -- right. right. right. split; [reflexivity|]. split; [reflexivity|].
           now exists sql, err.
    + five.
      apply escapes_none; [|discriminate].
      intros e [(x & H & _) | [(_ & h & x & H & _)
                              | [(_ & _ & H & _)
                                | (_ & _ & q & x & [= <-] & H & _)]]];
        congruence.
  - five.
    apply escapes_none; [|discriminate].
    intros e [(x & H & _) | [(_ & h & x & H & _)
                            | [(_ & _ & H & _)
                              | (_ & _ & q & x & H & _)]]];
      discriminate H.
  - five.
    apply escapes_one.
    + intros e [(x & H & _) | [(_ & h & x & H & _)
                              | [(_ & _ & _ & ->)
                                | (_ & _ & q & x & H & _)]]];
        [discriminate H | discriminate H | reflexivity | discriminate H].
    + right. right. left. tauto.
Qed.

(** ** What [main] prints and sends *)

Lemma query_of_insufficient (cat : list table) :
  insufficient cat ->
  query_of cat
  = Raises (RuntimeError
              "Database must have at least 'customers' and 'orders' tables.")
  /\ statements_of cat = [list_tables_stmt].
Proof.
  intros H. apply insufficient_has_table in H.
  unfold query_of, bindings_of, statements_of. now rewrite H.
Qed.

(** When no catalog read is refused, neither the listing by [main] nor a
    statement of [build_query] is. *)
Lemma refused_read_none (st : store row) :
  refused_read st = None ->
  read_error st [] list_tables_stmt = None
  /\ first_refused (read_error st) [list_tables_stmt]
       (statements_of (store_catalog st)) = None.
Proof.
  rewrite refused_read_eq.
  destruct (read_error st [] list_tables_stmt); [discriminate | tauto].
Qed.

(** X11.  On a database that lacks the customers or the orders table, once
    connected and with its catalog reads answered, [main] prints the list
    of tables and then the message of the table check after [Runtime
    error:], returns normally with the connection closed, and has sent
    nothing but the listing of the tables, twice: once for its own report
    and once inside [build_query].  No query reaches the engine. *)
Theorem main_reports_missing_tables :
  forall st : store row,
    file_exists st = true ->
    connect_error st = None ->
    refused_read st = None ->
    insufficient (store_catalog st) ->
    printed (run st)
    = [tables_line (store_catalog st);
       "Runtime error: Database must have at least 'customers' and 'orders' tables."]
    /\ sent (run st) = [list_tables_stmt; list_tables_stmt]
    /\ ended (run st) = ReturnsNormally
    /\ closed (run st) = true.
Proof.
  intros st Hf Hc Hr Hi. unfold main. rewrite Hf, Hc. cbn [negb].
  rewrite main_body_eq. cbv zeta.
  destruct (refused_read_none st Hr) as [-> ->].
  destruct (query_of_insufficient _ Hi) as [-> ->]. cbn. tauto.
Qed.

(** X12.  When [build_query] returns a text, once connected and with its
    catalog reads answered, [main] prints the list of tables and the echo
    of the query, sends that very text to the engine as its last
    statement, after the catalog reads, and closes the connection whatever
    the engine answers.  An [OperationalError] is reported after [SQLite
    error while running query:] and [main] returns normally; any other
    error of the engine escapes [main] with nothing more printed; an empty
    result is reported by [Query returned 0 rows.]; and any other result
    is printed by [print_rows], which yields the header, the separator,
    one line per row and the count. *)
Theorem main_runs_the_query_it_built :
  forall (st : store row) (sql : string),
    file_exists st = true ->
    connect_error st = None ->
    refused_read st = None ->
    result_of build_query (connect (store_catalog st)) = Returns sql ->
    sent (run st)
    = (list_tables_stmt :: statements_of (store_catalog st) ++ [sql])%list
    /\ closed (run st) = true
    /\ match run_query st sql with
       | inl err =>
           if operational err then
             printed (run st)
             = [tables_line (store_catalog st); echo sql;
                "SQLite error while running query: " ++ message err]
             /\ ended (run st) = ReturnsNormally
           else
             printed (run st) = [tables_line (store_catalog st); echo sql]
             /\ ended (run st) = Propagates (Sqlite err)
       | inr (headers, []) =>
           printed (run st)
           = [tables_line (store_catalog st); echo sql; "Query returned 0 rows."]
           /\ ended (run st) = ReturnsNormally
       | inr (headers, rows) =>
           (exists lines,
              print_rows str headers (rows_as_tuples row_item headers rows)
              = Returns lines
              /\ List.length lines = List.length rows + 3
              /\ printed (run st)
                 = (tables_line (store_catalog st) :: echo sql :: lines)%list)
           /\ ended (run st) = ReturnsNormally
       end.
Proof.
  intros st sql Hf Hc Hr Hq. unfold main. rewrite Hf, Hc. cbn [negb].
  rewrite main_body_eq. cbv zeta.
  destruct (refused_read_none st Hr) as [-> ->].
  rewrite (query_of_result (connect (store_catalog st))) in Hq.
  cbn [catalog connect] in Hq. rewrite Hq.
  destruct (run_query st sql) as [err | [headers [|r rows]]].
  - destruct (operational err); cbn; tauto.
  - cbn. tauto.
  - destruct (print_rows_of_tuples_returns headers (r :: rows)) as (lines & E & L).
    rewrite E. cbn. repeat split. exists lines. tauto.
Qed.

End MainFacts.

Lemma main_reports_missing_tables_witness :
  printed (main Runs.text Runs.item "ecommerce.db" Runs.customers_only)
  = ["Tables in database: customers";
     "Runtime error: Database must have at least 'customers' and 'orders' tables."]
  /\ sent (main Runs.text Runs.item "ecommerce.db" Runs.customers_only)
     = [list_tables_stmt; list_tables_stmt].
Proof.
  destruct (main_reports_missing_tables Runs.text Runs.item "ecommerce.db"
              Runs.customers_only eq_refl eq_refl eq_refl) as (Hp & Hs & _).
  - right. intros (t & [<-|[]] & H). discriminate H.
  - split; [exact Hp | exact Hs].
Defined.

Lemma main_runs_the_query_witness :
  sent (main Runs.text Runs.item "ecommerce.db" Runs.one_row)
  = [list_tables_stmt; list_tables_stmt;
     table_info_stmt "orders"; table_info_stmt "customers";
     minimal_query_text "customers" "orders" "customer_id" "order_id" "total_amount"]
  /\ ended (main Runs.text Runs.item "ecommerce.db" Runs.one_row) = ReturnsNormally.
Proof.
  destruct (main_runs_the_query_it_built Runs.text Runs.item "ecommerce.db"
              Runs.one_row
              (minimal_query_text "customers" "orders" "customer_id" "order_id"
                 "total_amount")
              eq_refl eq_refl eq_refl eq_refl) as (Hs & _ & _ & He).
  split; [exact Hs | exact He].
Defined.

(** ** The echoed query *)

Lemma rstrip_app (y z : string) :
  rstrip z <> "" -> rstrip (y ++ z) = y ++ rstrip z.
Proof.
  intros Hz. induction y as [|a y IH]; simpl; [reflexivity|].
  rewrite IH. destruct (y ++ rstrip z) eqn:E; [|reflexivity].
  exfalso. destruct y; simpl in E; [now apply Hz | discriminate E].
Qed.

Lemma trimmed_shape (sql indent rest : string) :
  indent = "    " \/ indent = "        " ->
  sql = nl ++ indent ++ "SELECT" ++ rest ->
  ends_with (nl ++ indent ++ "LIMIT 50;" ++ nl ++ indent) rest ->
  (exists mid, strip sql = "SELECT" ++ mid ++ "LIMIT 50;")
  /\ sql = nl ++ indent ++ strip sql ++ nl ++ indent.
Proof.
  intros Hi -> (pre & ->).
  assert (L : lstrip (nl ++ indent ++ "SELECT"
                      ++ pre ++ nl ++ indent ++ "LIMIT 50;" ++ nl ++ indent)
              = "SELECT" ++ pre ++ nl ++ indent ++ "LIMIT 50;" ++ nl ++ indent)
    by (destruct Hi as [-> | ->]; reflexivity).
  assert (R : rstrip (nl ++ indent ++ "LIMIT 50;" ++ nl ++ indent)
              = nl ++ indent ++ "LIMIT 50;")
    by (destruct Hi as [-> | ->]; reflexivity).
  assert (S : strip (nl ++ indent ++ "SELECT"
                     ++ pre ++ nl ++ indent ++ "LIMIT 50;" ++ nl ++ indent)
              = "SELECT" ++ pre ++ nl ++ indent ++ "LIMIT 50;").
  { unfold strip. rewrite L.
    rewrite <- (string_app_assoc "SELECT" pre).
    rewrite rstrip_app by (rewrite R; destruct Hi as [-> | ->]; discriminate).
    rewrite R, string_app_assoc. reflexivity. }
  rewrite S. split.
  - exists (pre ++ nl ++ indent). rewrite !string_app_assoc. reflexivity.
  - rewrite !string_app_assoc. reflexivity.
Qed.

(** X13.  [sql.strip()] takes off the text [build_query] returns exactly
    its first line feed and indentation and its last ones: what [main]
    echoes between the two rules begins with [SELECT] and ends with
    [LIMIT 50;], and nothing of the query is lost. *)
Theorem echoed_query_is_trimmed :
  forall (conn : connection) (sql : string),
    result_of build_query conn = Returns sql ->
    (exists mid, strip sql = "SELECT" ++ mid ++ "LIMIT 50;")
    /\ exists indent,
         (indent = "    " \/ indent = "        ")
         /\ sql = nl ++ indent ++ strip sql ++ nl ++ indent.
Proof.
  intros conn sql H. apply build_query_returns in H. destruct H as (b & _ & ->).
  unfold render. destruct (select_tier b).
  - destruct (trimmed_shape (full_sql b) "        " _ (or_intror eq_refl) eq_refl)
      as [H1 H2]; [unfold limit_clause; find_suffix|].
    split; [exact H1|]. exists "        ". split; [now right | exact H2].
  - destruct (trimmed_shape (degraded_sql b) "        " _ (or_intror eq_refl) eq_refl)
      as [H1 H2]; [find_suffix|].
    split; [exact H1|]. exists "        ". split; [now right | exact H2].
  - destruct (trimmed_shape (minimal_sql b) "    " _ (or_introl eq_refl) eq_refl)
      as [H1 H2]; [find_suffix|].
    split; [exact H1|]. exists "    ". split; [now left | exact H2].
Qed.

Lemma echoed_query_witness :
  exists mid,
    strip (minimal_query_text "customers" "orders" "customer_id" "order_id"
             "total_amount")
    = "SELECT" ++ mid ++ "LIMIT 50;".
Proof.
  apply (echoed_query_is_trimmed (connect Samples.scenario_A) _ eq_refl).
Defined.

(** * Properties of [ingest_csv] *)

Section IngestFacts.

Context {integer real : Type}.
Context (py_float : string -> option real) (py_int : real -> option integer).
Context (py_strip : string -> string).
Context {failure : Type}.
Context (executemany : string -> list (list (sql_value integer real)) -> option failure).

Local Abbreviation convert := (convert_value integer real py_float py_int).
Local Abbreviation cell := (cell_value integer real py_float py_int py_strip).
Local Abbreviation values_of := (row_values integer real py_float py_int py_strip).
Local Abbreviation load := (all_values integer real py_float py_int py_strip).
Local Abbreviation ingest :=
  (ingest_csv integer real py_float py_int py_strip failure executemany).
Local Abbreviation field r col := (field_text py_strip r col).
Local Abbreviation stored := (loaded_as py_float py_int).

(** ** One row *)

Lemma cell_value_done (columns : list (string * string)) (r : csv_row)
      (col : string) (v : sql_value integer real) :
  cell columns r col = Done v ->
  v = convert (col_type_of columns col) (Some (field r col)).
Proof.
  unfold cell_value, field_text.
  destruct (dict_get r col) as [[s|]|]; [| discriminate |]; now intros [= <-].
Qed.

Lemma cell_value_raises (columns : list (string * string)) (r : csv_row)
      (col : string) :
  cell columns r col = AttributeError <-> dict_get r col = Some None.
Proof.
  unfold cell_value.
  destruct (dict_get r col) as [[s|]|]; split; try discriminate; reflexivity.
Qed.

Lemma row_values_raises (columns : list (string * string)) (r : csv_row)
      (names : list string) :
  values_of columns r names = AttributeError <->
  exists col, In col names /\ dict_get r col = Some None.
Proof.
  induction names as [|col names IH]; simpl.
  - split; [discriminate | intros (c & [] & _)].
  - pose proof (cell_value_raises columns r col) as Hc.
    destruct (cell columns r col) as [v|].
    + destruct (values_of columns r names) as [vs|].
      * split; [discriminate|]. intros (c & [<-|Hin] & E).
        -- apply Hc in E. discriminate E.
        -- assert (X : @Done (list (sql_value integer real)) vs = AttributeError)
             by (apply IH; now exists c).
           discriminate X.
      * split; [intros _ | reflexivity].
        destruct IH as [IH _]. destruct (IH eq_refl) as (c & Hin & E).
        exists c. split; [now right | exact E].
    + split; [intros _ | reflexivity]. exists col. split; [now left | now apply Hc].
Qed.

Lemma row_values_done (columns : list (string * string)) (r : csv_row)
      (names : list string) :
  forall vs,
    values_of columns r names = Done vs ->
    vs = map (fun col => convert (col_type_of columns col) (Some (field r col)))
             names.
Proof.
  induction names as [|col names IH]; simpl; intros vs H.
  - now injection H as <-.
  - destruct (cell columns r col) as [v|] eqn:E; [|discriminate H].
    destruct (values_of columns r names) as [vs'|]; [|discriminate H].
    injection H as <-. rewrite (cell_value_done _ _ _ _ E), (IH vs' eq_refl).
    reflexivity.
Qed.

(** ** All the rows *)

Lemma all_values_raises (columns : list (string * string)) (rows : list csv_row) :
  load columns rows = AttributeError <->
  exists r col, In r rows /\ In col (map fst columns) /\ dict_get r col = Some None.
Proof.
  induction rows as [|r rows IH]; simpl.
  - split; [discriminate | intros (r & c & [] & _)].
  - pose proof (row_values_raises columns r (map fst columns)) as Hr.
    destruct (values_of columns r (map fst columns)) as [t|].
    + destruct (load columns rows) as [ts|].
      * split; [discriminate|]. intros (r' & c & [<-|Hin] & Hc & E).
        -- assert (X : @Done (list (sql_value integer real)) t = AttributeError)
             by (apply Hr; now exists c).
           discriminate X.
        -- assert (X : @Done (list (list (sql_value integer real))) ts
                       = AttributeError)
             by (apply IH; now exists r', c).
           discriminate X.
      * split; [intros _ | reflexivity].
        destruct IH as [IH _]. destruct (IH eq_refl) as (r' & c & Hin & Hc & E).
        exists r', c. split; [now right | tauto].
    + split; [intros _ | reflexivity].
      destruct Hr as [Hr _]. destruct (Hr eq_refl) as (c & Hc & E).
      exists r, c. split; [now left | tauto].
Qed.

Lemma all_values_done (columns : list (string * string)) (rows : list csv_row) :
  forall ts,
    load columns rows = Done ts ->
    ts = map (fun r =>
                map (fun col => convert (col_type_of columns col)
                                  (Some (field r col)))
                    (map fst columns))
             rows.
Proof.
  induction rows as [|r rows IH]; simpl; intros ts H.
  - now injection H as <-.
  - destruct (values_of columns r (map fst columns)) as [t|] eqn:E;
      [|discriminate H].
    destruct (load columns rows) as [ts'|]; [|discriminate H].
    injection H as <-. rewrite (row_values_done _ _ _ _ E), (IH ts' eq_refl).
    reflexivity.
Qed.

(** ** What [ingest_csv] does *)

(** The text and the type determine what is stored. *)
Lemma loaded_as_unique (ty text : string) (v v' : sql_value integer real) :
  stored ty text v -> stored ty text v' -> v = v'.
Proof.
  intros (E1 & I1 & R1 & T1) (E2 & I2 & R2 & T2).
  destruct (string_dec text "") as [Ht|Ht].
  { now rewrite (E1 Ht), (E2 Ht). }
  destruct (string_dec ty "INTEGER") as [Hi|Hi].
  { destruct (I1 Ht Hi) as (A1 & B1 & C1). destruct (I2 Ht Hi) as (A2 & B2 & C2).
    destruct C1 as [-> | (n & ->)].
    - symmetry. apply B2. now apply B1.
    - symmetry. apply A2. now apply A1. }
  destruct (string_dec ty "REAL") as [Hr|Hr].
  { destruct (R1 Ht Hr) as (A1 & B1 & C1). destruct (R2 Ht Hr) as (A2 & B2 & C2).
    destruct C1 as [-> | (x & ->)].
    - symmetry. apply B2. now apply B1.
    - symmetry. apply A2. now apply A1. }
  now rewrite (T1 Ht Hi Hr), (T2 Ht Hi Hr).
Qed.

Lemma convert_loaded_as (ty text : string) :
  stored ty text (convert ty (Some text)).
Proof.
  unfold loaded_as, convert_value.
  destruct (String.eqb text "") eqn:Et.
  { apply String.eqb_eq in Et. subst text.
    split; [reflexivity|]. split; [|split]; intros H; now elim H. }
  apply String.eqb_neq in Et.
  split; [intros H; contradiction|].
  destruct (String.eqb ty "INTEGER") eqn:Ei.
  { apply String.eqb_eq in Ei. subst ty. split; [|split].
    - intros _ _. destruct (py_float text) as [x|].
      + destruct (py_int x) as [n|] eqn:En.
        * split; [|split].
          -- intros m. split.
             ++ intros [= <-]. now exists x.
             ++ intros (y & [= <-] & E). congruence.
          -- split; [discriminate|].
             intros [H | (y & [= <-] & E)]; congruence.
          -- right. now exists n.
        * split; [|split].
          -- intros m. split; [discriminate|].
             intros (y & [= <-] & E). congruence.
          -- split; [|reflexivity]. intros _. right. now exists x.
          -- now left.
      + split; [|split].
        * intros m. split; [discriminate|]. intros (y & E & _). discriminate E.
        * split; [|reflexivity]. intros _. now left.
        * now left.
    - intros _ H. discriminate H.
    - intros _ H. now elim H. }
  apply String.eqb_neq in Ei.
  destruct (String.eqb ty "REAL") eqn:Er.
  { apply String.eqb_eq in Er. subst ty. split; [|split].
    - intros _ H. discriminate H.
    - intros _ _. destruct (py_float text) as [x|].
      + split; [|split].
        * intros y. split; [intros [= <-]; reflexivity | intros [= <-]; reflexivity].
        * split; discriminate.
        * right. now exists x.
      + split; [|split].
        * intros y. split; discriminate.
        * split; reflexivity.
        * now left.
    - intros _ _ H. now elim H. }
  apply String.eqb_neq in Er.
  split; [|split]; try (intros; contradiction). reflexivity.
Qed.

(** X14.  When [ingest_csv] performs an insertion, the file was found and
    had rows, the count returned is the number of rows read, one tuple is
    inserted per row, every tuple has one value per declared column, and
    the statement names every declared column in quotes and carries as many
    [?] placeholders as there are columns. *)
Theorem ingest_csv_inserts_whole_rows :
  forall (found : bool) (path : string) (rows : list csv_row)
         (reader_error : option failure) (table : string)
         (columns : list (string * string)) (n : nat) (w : option string)
         (stmt : string) (tuples : list (list (sql_value integer real))),
    ingest found path rows reader_error table columns
    = Ingested n w (Some (stmt, tuples)) ->
    found = true /\ w = None /\ rows <> []
    /\ n = List.length rows
    /\ List.length tuples = List.length rows
    /\ Forall (fun t => List.length t = List.length columns) tuples
    /\ stmt = "INSERT INTO " ++ quoted table ++ " ("
              ++ String.concat "," (map quoted (map fst columns))
              ++ ") VALUES ("
              ++ String.concat "," (repeat "?" (List.length columns)) ++ ")".
Proof.
  intros found path rows reader_error table columns n w stmt tuples H.
  unfold ingest_csv in H. destruct found; cbn [negb] in H; [|discriminate H].
  destruct (load columns rows) as [ts|] eqn:E; [|discriminate H].
  destruct reader_error as [e|]; [discriminate H|].
  destruct ts as [|t ts]; [discriminate H|]. cbv zeta in H.
  destruct (executemany _ _) as [e|]; [discriminate H|].
  injection H as <- <- <- <-.
  pose proof (all_values_done columns rows _ E) as Hts.
  assert (L : List.length (t :: ts) = List.length rows)
    by (rewrite Hts; apply length_map).
  split; [reflexivity|]. split; [reflexivity|]. split.
  { intros ->. discriminate L. }
  split; [exact L|]. split; [exact L|]. split.
  - rewrite Hts. apply Forall_forall. intros x Hx. apply in_map_iff in Hx.
    destruct Hx as (r & <- & _). now rewrite !length_map.
  - unfold insert_statement. now rewrite length_map.
Qed.

(** X15.  [ingest_csv] stops on an [AttributeError] exactly when the file
    exists and some row holds [None] under a declared column, that is, when
    a line of the CSV is too short to reach that column; nothing is inserted
    then.  A missing file gives the warning and a count of 0, a file read
    to its end without rows a count of 0, and these are the only cases
    that return without insertion.  It stops on another exception exactly
    when the file exists, no row holds [None] under a declared column, and
    either reading the file raised it, before any insertion, or the file
    was read to its end, had rows, and [executemany] raised it on the
    statement and the tuples of all the rows.  When it returns after an
    insertion, neither raised. *)
Theorem ingest_csv_outcomes :
  forall (found : bool) (path : string) (rows : list csv_row)
         (reader_error : option failure) (table : string)
         (columns : list (string * string)),
    (ingest found path rows reader_error table columns = IngestRaises <->
     found = true
     /\ exists r col, In r rows /\ In col (map fst columns)
                      /\ dict_get r col = Some None)
    /\ (found = false ->
        ingest found path rows reader_error table columns
        = Ingested 0 (Some ("Warning: " ++ path ++ " not found, skipping.")) None)
    /\ (found = true -> reader_error = None -> rows = [] ->
        ingest found path rows reader_error table columns = Ingested 0 None None)
    /\ (forall n w,
          ingest found path rows reader_error table columns = Ingested n w None ->
          n = 0 /\ (found = false \/ rows = []))
    /\ (forall e ins,
          ingest found path rows reader_error table columns = IngestFails e ins <->
          found = true
          /\ (forall r col, In r rows -> In col (map fst columns) ->
                            dict_get r col <> Some None)
          /\ ((reader_error = Some e /\ ins = None)
              \/ (reader_error = None /\ rows <> []
                  /\ exists tuples,
                       load columns rows = Done tuples
                       /\ ins = Some (insert_statement table (map fst columns),
                                      tuples)
                       /\ executemany (insert_statement table (map fst columns))
                            tuples = Some e)))
    /\ (forall n w stmt tuples,
          ingest found path rows reader_error table columns
          = Ingested n w (Some (stmt, tuples)) ->
          reader_error = None /\ executemany stmt tuples = None).
Proof.
  intros found path rows reader_error table columns. unfold ingest_csv.
  destruct found; cbn [negb].
  2:{ split; [|split; [|split; [|split; [|split]]]].
      - split; [discriminate | intros (H & _); discriminate H].
      - reflexivity.
      - discriminate.
      - intros n w [= <- _]. split; [reflexivity | now left].
      - intros e ins. split; [discriminate | intros (H & _); discriminate H].
      - discriminate. }
  pose proof (all_values_raises columns rows) as R.
  destruct (load columns rows) as [ts|] eqn:E.
  2:{ split; [|split; [|split; [|split; [|split]]]].
      - split; [intros _ | reflexivity]. split; [reflexivity | now apply R].
      - discriminate.
      - intros _ _ ->. discriminate E.
      - discriminate.
      - intros e ins. split; [discriminate|]. intros (_ & H & _).
        destruct R as [R _]. destruct (R eq_refl) as (r & col & Hr & Hc & Hn).
        now elim (H r col Hr Hc).
      - discriminate. }
  pose proof (all_values_done columns rows _ E) as Hts.
  assert (Clean : forall r col, In r rows -> In col (map fst columns) ->
                                dict_get r col <> Some None).
  { intros r col Hr Hc Hn.
    assert (X : @Done (list (list (sql_value integer real))) ts = AttributeError)
      by (apply R; now exists r, col).
    discriminate X. }
  assert (NoRaise : ~ (true = true
                       /\ exists r col, In r rows /\ In col (map fst columns)
                                        /\ dict_get r col = Some None)).
  { intros (_ & r & col & Hr & Hc & Hn). now elim (Clean r col Hr Hc). }
  destruct reader_error as [re|].
  { split; [|split; [|split; [|split; [|split]]]].
    - split; [discriminate | intros H; now elim NoRaise].
    - discriminate.
    - discriminate.
    - discriminate.
    - intros e ins. split.
      + intros [= <- <-]. split; [reflexivity|]. split; [exact Clean|]. now left.
      + intros (_ & _ & [([= <-] & ->) | (H & _)]); [reflexivity | discriminate H].
    - discriminate. }
  destruct ts as [|t ts].
  { assert (rows = []) as -> by (destruct rows; [reflexivity | discriminate Hts]).
    split; [|split; [|split; [|split; [|split]]]].
    - split; [discriminate | intros H; now elim NoRaise].
    - discriminate.
    - reflexivity.
    - intros n w [= <- _]. split; [reflexivity | now right].
    - intros e ins. split; [discriminate|].
      intros (_ & _ & [(H & _) | (_ & H & _)]); [discriminate H | now elim H].
    - discriminate. }
  assert (Hrows : rows <> []) by (intros ->; discriminate Hts).
  cbv zeta.
  destruct (executemany (insert_statement table (map fst columns)) (t :: ts))
    as [ee|] eqn:Ex.
  - split; [|split; [|split; [|split; [|split]]]].
    + split; [discriminate | intros H; now elim NoRaise].
    + discriminate.
    + intros _ _ H. now elim Hrows.
    + discriminate.
    + intros e ins. split.
      * intros [= <- <-]. split; [reflexivity|]. split; [exact Clean|]. right.
        split; [reflexivity|]. split; [exact Hrows|]. now exists (t :: ts).
      * intros (_ & _ & [(H & _) | (_ & _ & tuples & [= <-] & -> & He)]);
          [discriminate H|]. congruence.
    + discriminate.
  - split; [|split; [|split; [|split; [|split]]]].
    + split; [discriminate | intros H; now elim NoRaise].
    + discriminate.
    + intros _ _ H. now elim Hrows.
    + discriminate.
    + intros e ins. split; [discriminate|].
      intros (_ & _ & [(H & _) | (_ & _ & tuples & [= <-] & _ & He)]);
        [discriminate H|]. congruence.
    + intros n w stmt tuples [= _ _ <- <-]. split; [reflexivity | exact Ex].
Qed.

(** X16.  The tuples inserted follow the rows in order and the declared
    columns in order.  The value stored for a column of a row comes from the
    stripped text of that field, the empty text when the CSV has no such
    column, and from the type of the last declaration of the column name.
    Nothing is stored for the empty text whatever the type.  Under
    [INTEGER] a non-empty text is stored as the integer [int(float(text))]
    when both conversions succeed, and as nothing exactly when one of them
    raises; under [REAL] as the number [float(text)] when it converts, and
    as nothing exactly when it does not; under any other type name as the
    text itself.  So the stored value is determined by the text and the
    type. *)
Theorem ingest_csv_loaded_values :
  forall (found : bool) (path : string) (rows : list csv_row)
         (reader_error : option failure) (table : string)
         (columns : list (string * string)) (n : nat) (w : option string)
         (stmt : string) (tuples : list (list (sql_value integer real))),
    ingest found path rows reader_error table columns
    = Ingested n w (Some (stmt, tuples)) ->
    forall (i j : nat) (r : csv_row) (col : string),
      nth_error rows i = Some r ->
      nth_error (map fst columns) j = Some col ->
      exists t v,
        nth_error tuples i = Some t /\ nth_error t j = Some v
        /\ stored (col_type_of columns col) (field r col) v
        /\ forall v', stored (col_type_of columns col) (field r col) v' -> v' = v.
Proof.
  intros found path rows reader_error table columns n w stmt tuples H
         i j r col Hr Hc.
  unfold ingest_csv in H. destruct found; cbn [negb] in H; [|discriminate H].
  destruct (load columns rows) as [ts|] eqn:E; [|discriminate H].
  destruct reader_error as [e|]; [discriminate H|].
  destruct ts as [|t0 ts]; [discriminate H|]. cbv zeta in H.
  destruct (executemany _ _) as [e|]; [discriminate H|].
  injection H as _ _ _ <-.
  rewrite (all_values_done columns rows _ E).
  eexists. eexists. split; [|split; [|split]].
  - rewrite nth_error_map, Hr. reflexivity.
  - rewrite nth_error_map, Hc. reflexivity.
  - apply convert_loaded_as.
  - intros v' Hv'. apply (loaded_as_unique _ _ _ _ Hv'), convert_loaded_as.
Qed.

End IngestFacts.

Lemma ingest_csv_inserts_witness :
  exists stmt tuples,
    Loads.run = Ingested 2 None (Some (stmt, tuples))
    /\ Forall (fun t => List.length t = 3) tuples.
Proof.
  eexists. eexists. split; [reflexivity|].
  destruct (ingest_csv_inserts_whole_rows Loads.to_float Loads.to_int strip
              Loads.accepts
              true "customers.csv" Loads.rows None "customers" Loads.columns
              _ _ _ _ eq_refl) as (_ & _ & _ & _ & _ & H & _).
  exact H.
Defined.

Lemma ingest_csv_loaded_values_witness :
  exists t v,
    nth_error [[Text "CUST0001"; Text "Ann"; Int 7];
               [Text "CUST0002"; Text "Bob"; @Null nat nat]] 0 = Some t
    /\ nth_error t 2 = Some v
    /\ loaded_as Loads.to_float Loads.to_int "INTEGER" "7" v
    /\ forall v', loaded_as Loads.to_float Loads.to_int "INTEGER" "7" v' -> v' = v.
Proof.
  apply (ingest_csv_loaded_values Loads.to_float Loads.to_int strip
           Loads.accepts
           true "customers.csv" Loads.rows_with_visits None "customers"
           Loads.columns
           _ _ _ _ eq_refl 0 2 _ "visits" eq_refl eq_refl).
Defined.

(** * The row cap and the names written into the query *)

(** ** Scanning text that opens no quote and no comment *)







(** ** The names [build_query] writes *)










(** ** The closing clause *)




